(** * ToolHub worker: the request-dispatch core of [src/index.ts]

    A shallow embedding of the MCP Tool-Hub Worker: the shared-secret gate and
    CORS pre-flight of [fetch], the lazily built and cached MCP server, the
    three tool registrations of [buildServer] with their zod schemas, and the
    handlers that proxy each tool to its downstream HTTP service. *)

From Stdlib Require Import String Ascii List Bool ZArith QArith Lia DecimalString.
Import ListNotations.

Set Warnings "-register-all".

Local Open Scope Z_scope.
Local Open Scope string_scope.

(** ** JavaScript values *)

(** The values that travel through the worker: tool arguments, downstream JSON
    documents and the fields of content blocks.  Numbers are the finite ones
    (JSON carries neither NaN nor infinities), read as rationals.  An object
    is its list of properties in insertion order, with distinct keys; one
    character of a [string] stands for one code unit, so that [js_length] is
    the [.length] of the JavaScript string. *)
Inductive value : Type :=
| JUndefined
| JNull
| JBool (b : bool)
| JNum (n : Q)
| JStr (s : string)
| JArr (items : list value)
| JObj (props : list (string * value)).

Definition object : Type := list (string * value).

Fixpoint lookup {A : Type} (key : string) (entries : list (string * A)) : option A :=
  match entries with
  | [] => None
  | (k, v) :: rest => if k =? key then Some v else lookup key rest
  end.

(** [obj[key]] on an object literal: a missing property reads [undefined]. *)
Definition get_prop (props : object) (key : string) : value :=
  match lookup key props with
  | Some v => v
  | None => JUndefined
  end.

Definition js_length (s : string) : Z := Z.of_nat (String.length s).

(** [a ?? b] on values that are [null] or a string. *)
Definition nullish {A : Type} (a b : option A) : option A :=
  match a with
  | Some x => Some x
  | None => b
  end.

Notation "a ?? b" := (nullish a b) (at level 45, right associativity).

(** [!token] for [token : string | null]: [null] and the empty string are
    falsy, every other string is truthy. *)
Definition falsy (token : option string) : bool :=
  match token with
  | None => true
  | Some s => s =? ""
  end.

(** [token !== secret] for [token : string | null] against a string. *)
Definition strict_neq (token : option string) (secret : string) : bool :=
  match token with
  | None => true
  | Some s => negb (s =? secret)
  end.

(** ** JSON text *)

Definition dquote : ascii := "034"%char.
Definition backslash : ascii := "092"%char.

Definition hex_digit (n : nat) : ascii :=
  match n with
  | 0 => "0" | 1 => "1" | 2 => "2" | 3 => "3" | 4 => "4" | 5 => "5" | 6 => "6"
  | 7 => "7" | 8 => "8" | 9 => "9" | 10 => "a" | 11 => "b" | 12 => "c"
  | 13 => "d" | 14 => "e" | _ => "f"
  end%nat%char.

(** One code unit of a string inside a JSON text (QuoteJSONString). *)
Definition quote_char (c : ascii) : string :=
  let n := nat_of_ascii c in
  if Ascii.eqb c dquote then String backslash (String dquote "")
  else if Ascii.eqb c backslash then String backslash (String backslash "")
  else if (n =? 8)%nat then String backslash "b"
  else if (n =? 9)%nat then String backslash "t"
  else if (n =? 10)%nat then String backslash "n"
  else if (n =? 12)%nat then String backslash "f"
  else if (n =? 13)%nat then String backslash "r"
  else if (n <? 32)%nat then
    String backslash
      (String "u" (String "0" (String "0"
         (String (hex_digit (n / 16)) (String (hex_digit (n mod 16)) "")))))
  else String c "".

Fixpoint quote_chars (s : string) : string :=
  match s with
  | EmptyString => ""
  | String c rest => quote_char c ++ quote_chars rest
  end.

Definition QuoteJSONString (s : string) : string :=
  String dquote (quote_chars s) ++ String dquote "".

(** ** HTTP messages *)

Definition HeadersInit : Type := list (string * string).

Definition lower_char (c : ascii) : ascii :=
  let n := nat_of_ascii c in
  if ((65 <=? n) && (n <=? 90))%nat then ascii_of_nat (n + 32) else c.

Fixpoint toLowerCase (s : string) : string :=
  match s with
  | EmptyString => ""
  | String c rest => String (lower_char c) (toLowerCase rest)
  end.

(** [headers.get(name)]: names match without regard to case, and the values
    of a repeated header are joined by a comma and a space. *)
Definition Headers_get (headers : HeadersInit) (name : string) : option string :=
  match filter (fun h => toLowerCase (fst h) =? toLowerCase name) headers with
  | [] => None
  | found => Some (String.concat ", " (map snd found))
  end.

Module URL.
Record t : Type := mk {
  href : string;
  searchParams : list (string * string)
}.

(** [url.searchParams.get(name)]: the value of the first pair of that name. *)
Definition searchParams_get (url : t) (name : string) : option string :=
  lookup name (searchParams url).
End URL.

Module Request.
(** An inbound request, as the worker reads it. *)
Record t : Type := mk {
  method : string;
  url : string;
  headers : HeadersInit
}.
End Request.

Module RequestInit.
(** The second argument of the global [fetch]. *)
Record t : Type := mk {
  method : string;
  headers : HeadersInit;
  body : option string
}.
End RequestInit.

Module Response.
Record t : Type := mk {
  status : Z;
  headers : HeadersInit;
  body : option string
}.

(** [res.ok]: the status is in the range 200-299. *)
Definition ok (res : t) : bool :=
  ((200 <=? status res) && (status res <=? 299))%Z.

(** [await res.text()]. *)
Definition text (res : t) : string :=
  match body res with
  | Some s => s
  | None => ""
  end.
End Response.

(** [new Response(body, { status, headers })]. *)
Definition new_Response (body : option string) (status : Z) (headers : HeadersInit)
  : Response.t :=
  Response.mk status headers body.

(** ** The platform *)

(** What the JavaScript engine and the Workers runtime provide and the source
    only calls: number formatting, the JSON reader and the URL parser. *)
Class Platform : Type := {
  Number_toString : Q -> string;
  JSON_parse : string -> option value;
  new_URL : string -> URL.t
}.

(** The downstream services, as the global [fetch] reaches them: a request
    either fails in transport or is answered. *)
Definition Network : Type := string -> RequestInit.t -> option Response.t.

(** ** Failures and effects *)

(** Failures the engine raises by itself carry a text of the engine's choice,
    which is not modelled; [Error] is the source's [new Error(message)]. *)
Inductive exn : Type :=
| Error (message : string)
| NetworkFailure
| MalformedJSON
| DestructureNullish.

(** Computations that may throw, read the network and thread a state. *)
Definition M (S A : Type) : Type := Network -> S -> (exn + A) * S.

Definition ret {S A : Type} (a : A) : M S A := fun _ s => (inr a, s).

Definition throw {S A : Type} (e : exn) : M S A := fun _ s => (inl e, s).

Definition bind {S A B : Type} (c : M S A) (k : A -> M S B) : M S B :=
  fun net s =>
    match c net s with
    | (inr a, s') => k a net s'
    | (inl e, s') => (inl e, s')
    end.

Notation "x <- c ;; k" := (bind c (fun x => k))
  (at level 61, c at next level, right associativity).

(** The outbound calls made so far, oldest first. *)
Definition OutboundLog : Type := list (string * RequestInit.t).

(** An [async] function of a tool handler: its only state is the log of the
    calls it made. *)
Definition Async (A : Type) : Type := M OutboundLog A.

(** The global [fetch(input, init)]. *)
Definition global_fetch (input : string) (init : RequestInit.t) : Async Response.t :=
  fun net log =>
    match net input init with
    | Some res => (inr res, (log ++ [(input, init)])%list)
    | None => (inl NetworkFailure, (log ++ [(input, init)])%list)
    end.

(** ** zod schemas *)

Inductive StringCheck : Type :=
| str_min (n : Z)
| str_max (n : Z)
| str_length (n : Z).

Inductive NumberCheck : Type :=
| num_int
| num_min (n : Q)
| num_max (n : Q).

(** The schema constructors the source uses, indexed by the type of the value
    a successful parse yields; an object schema yields the tuple of its
    fields, in the order of its shape. *)
Inductive ZodType : Type -> Type :=
| z_string (checks : list StringCheck) : ZodType string
| z_number (checks : list NumberCheck) : ZodType Q
| z_default {A : Type} (inner : ZodType A) (defaultValue : A) : ZodType A
| z_object {A : Type} (shape : ZodShape A) : ZodType A
with ZodShape : Type -> Type :=
| no_more_fields : ZodShape unit
| field {A B : Type} (key : string) (type : ZodType A) (rest : ZodShape B)
  : ZodShape (A * B).

Definition check_string (s : string) (c : StringCheck) : bool :=
  match c with
  | str_min n => (n <=? js_length s)%Z
  | str_max n => (js_length s <=? n)%Z
  | str_length n => (js_length s =? n)%Z
  end.

(** [Number.isInteger] on a finite number. *)
Definition isInteger (n : Q) : bool := (Qnum n mod Zpos (Qden n) =? 0)%Z.

Definition check_number (n : Q) (c : NumberCheck) : bool :=
  match c with
  | num_int => isInteger n
  | num_min m => Qle_bool m n
  | num_max m => Qle_bool n m
  end.

(** [schema.safeParse(input)]: [None] when the input is rejected.  Keys of
    the input that the shape does not name are dropped. *)
Fixpoint safeParse {A : Type} (schema : ZodType A) (input : value) : option A :=
  match schema in ZodType T return option T with
  | z_string checks =>
      match input with
      | JStr s => if forallb (check_string s) checks then Some s else None
      | _ => None
      end
  | z_number checks =>
      match input with
      | JNum n => if forallb (check_number n) checks then Some n else None
      | _ => None
      end
  | z_default inner defaultValue =>
      match input with
      | JUndefined => Some defaultValue
      | _ => safeParse inner input
      end
  | z_object shape =>
      match input with
      | JObj props => parseShape shape props
      | _ => None
      end
  end
with parseShape {A : Type} (shape : ZodShape A) (props : object) : option A :=
  match shape in ZodShape T return option T with
  | no_more_fields => Some tt
  | field key type rest =>
      match safeParse type (get_prop props key), parseShape rest props with
      | Some a, Some b => Some (a, b)
      | _, _ => None
      end
  end.

(** ** Tool results and the MCP server *)

(** What a handler returns: [{ content: [...] }], each block an object
    literal. *)
Record ToolResult : Type := { content : list object }.

(** [McpServer] of the MCP library that the source imports, by its contract
    (the Tool Registry / Dispatcher of the specification): a mapping from tool
    name to schema and handler, filled by [tool] at construction, and one
    operation, [callTool], which finds the definition by exact name, runs the
    schema on the raw arguments, invokes the handler on the validated
    arguments only, and turns the handler's return value or thrown failure
    into an outcome. *)
Record ToolDefinition : Type := {
  Args : Type;
  schema : ZodType Args;
  handler : Args -> Async ToolResult
}.

Record McpServer : Type := {
  server_name : string;
  server_version : string;
  tools : list (string * ToolDefinition)
}.

Definition new_McpServer (name version : string) : McpServer :=
  {| server_name := name; server_version := version; tools := [] |}.

(** [mcp.tool(name, schema, handler)]. *)
Definition tool (mcp : McpServer) (name : string) {A : Type}
    (schema : ZodType A) (handler : A -> Async ToolResult) : McpServer :=
  {| server_name := server_name mcp;
     server_version := server_version mcp;
     tools := (tools mcp ++ [(name, {| Args := A; schema := schema; handler := handler |})])%list |}.

Inductive CallOutcome : Type :=
| UnknownTool
| ValidationFailed
| CallFailed (failure : exn)
| CallReturned (result : ToolResult).

(** A handler invoked at the dispatch boundary: what it throws is caught. *)
Definition invoke (call : Async ToolResult) : Async CallOutcome :=
  fun net log =>
    match call net log with
    | (inr result, log') => (inr (CallReturned result), log')
    | (inl failure, log') => (inr (CallFailed failure), log')
    end.

Definition callTool (mcp : McpServer) (name : string) (args : value)
  : Async CallOutcome :=
  match lookup name (tools mcp) with
  | None => ret UnknownTool
  | Some definition =>
      match safeParse (schema definition) args with
      | None => ret ValidationFailed
      | Some validated => invoke (handler definition validated)
      end
  end.

(** The transport of the MCP library, a black box that accepts a request and
    returns a response and does the protocol framing in between:
    [decode_calls] reads the tool calls a request carries, [frame] writes the
    response for their outcomes. *)
Class Transport : Type := {
  decode_calls : Request.t -> list (string * value);
  frame : Request.t -> list CallOutcome -> Response.t
}.

(** ** The environment *)

Record Env : Type := {
  HUB_TOKEN : string;
  TTS_ENDPOINT : string;
  TTS_TOKEN : string;
  IMAGE_ENDPOINT : string;
  IMAGE_KEY : string;
  TRANSLATE_ENDPOINT : string;
  (* cache handle *)
  __SERVER : option McpServer
}.

(** [env.__SERVER = server]. *)
Definition set_SERVER (env : Env) (server : McpServer) : Env :=
  {| HUB_TOKEN := HUB_TOKEN env;
     TTS_ENDPOINT := TTS_ENDPOINT env;
     TTS_TOKEN := TTS_TOKEN env;
     IMAGE_ENDPOINT := IMAGE_ENDPOINT env;
     IMAGE_KEY := IMAGE_KEY env;
     TRANSLATE_ENDPOINT := TRANSLATE_ENDPOINT env;
     __SERVER := Some server |}.

(** One isolate (a running process): its environment object, which every
    request of the isolate receives and [fetch] assigns in place, the number
    of times [buildServer] has run, and the outbound calls made. *)
Record Isolate : Type := {
  isolate_env : Env;
  constructions : nat;
  outbound : OutboundLog
}.

Definition Worker (A : Type) : Type := M Isolate A.

Definition lift {A : Type} (call : Async A) : Worker A :=
  fun net st =>
    match call net (outbound st) with
    | (r, log) =>
        (r, {| isolate_env := isolate_env st;
               constructions := constructions st;
               outbound := log |})
    end.

(** ** helpers *)

Definition CORS_HEADERS : HeadersInit :=
  [ ("Access-Control-Allow-Origin", "*");
    ("Access-Control-Allow-Methods", "GET, POST, OPTIONS");
    ("Access-Control-Allow-Headers", "Content-Type, X-Api-Token");
    ("Access-Control-Max-Age", "86400") ].

Section Worker.

Context {platform : Platform} {transport : Transport}.

(** [JSON.stringify(v)]: [None] is [undefined].  A property whose value is
    [undefined] is left out; in an array it is written [null]. *)
Fixpoint JSON_stringify (v : value) : option string :=
  match v with
  | JUndefined => None
  | JNull => Some "null"
  | JBool b => Some (if b then "true" else "false")
  | JNum n => Some (Number_toString n)
  | JStr s => Some (QuoteJSONString s)
  | JArr items =>
      Some ("[" ++ String.concat ","
              (map (fun item =>
                      match JSON_stringify item with
                      | Some s => s
                      | None => "null"
                      end) items) ++ "]")
  | JObj props =>
      Some ("{" ++ String.concat ","
              (flat_map (fun p =>
                           match JSON_stringify (snd p) with
                           | Some s => [QuoteJSONString (fst p) ++ ":" ++ s]
                           | None => []
                           end) props) ++ "}")
  end.

(** [function json(data, status = 200)]. *)
Definition json (data : value) (status : option Z) : Response.t :=
  new_Response (JSON_stringify data)
    (match status with Some s => s | None => 200 end)
    (("Content-Type", "application/json") :: CORS_HEADERS).

(** [await res.json()]. *)
Definition Response_json (res : Response.t) : Async value :=
  match JSON_parse (Response.text res) with
  | Some v => ret v
  | None => throw MalformedJSON
  end.

(** [const { key } = v], for a key that no prototype defines. *)
Definition destructure (v : value) (key : string) : Async value :=
  match v with
  | JUndefined | JNull => throw DestructureNullish
  | JObj props => ret (get_prop props key)
  | _ => ret JUndefined
  end.

(** *** build the MCP server (cached per isolate) *)

(** Tool 1 : ElevenLabs text-to-speech *)
Definition generate_audio_schema : ZodType (string * (string * (string * unit))) :=
  z_object
    (field "text" (z_string [str_min 1; str_max 5000])
    (field "voiceId" (z_string [])
    (field "modelId" (z_default (z_string []) "eleven_turbo_v2")
     no_more_fields))).

Definition generate_audio (env : Env)
  : string * (string * (string * unit)) -> Async ToolResult :=
  fun '(text, (voiceId, (modelId, _))) =>
    res <- global_fetch (TTS_ENDPOINT env ++ "?token=" ++ TTS_TOKEN env)
             {| RequestInit.method := "POST";
                RequestInit.headers := [("Content-Type", "application/json")];
                RequestInit.body :=
                  JSON_stringify (JObj [("text", JStr text);
                                        ("voiceId", JStr voiceId);
                                        ("modelId", JStr modelId)]) |} ;;
    if negb (Response.ok res) then throw (Error (Response.text res))
    else
      parsed <- Response_json res ;;
      audioUrl <- destructure parsed "audioUrl" ;;
      ret {| content :=
               [ [("type", JStr "text"); ("text", JStr "Audio created successfully.")];
                 [("type", JStr "audio"); ("url", audioUrl);
                  ("mime_type", JStr "audio/mpeg")] ] |}.

(** Tool 2 : Image generation *)
Definition generate_image_schema : ZodType (string * (Q * unit)) :=
  z_object
    (field "prompt" (z_string [str_min 1; str_max 800])
    (field "steps" (z_default (z_number [num_int; num_min 1; num_max 100]) 30%Q)
     no_more_fields)).

Definition generate_image (env : Env) : string * (Q * unit) -> Async ToolResult :=
  fun '(prompt, (steps, _)) =>
    res <- global_fetch (IMAGE_ENDPOINT env)
             {| RequestInit.method := "POST";
                RequestInit.headers :=
                  [("Authorization", "Bearer " ++ IMAGE_KEY env);
                   ("Content-Type", "application/json")];
                RequestInit.body :=
                  JSON_stringify (JObj [("prompt", JStr prompt);
                                        ("steps", JNum steps)]) |} ;;
    if negb (Response.ok res) then throw (Error (Response.text res))
    else
      parsed <- Response_json res ;;
      url <- destructure parsed "url" ;;
      ret {| content := [ [("type", JStr "image"); ("url", url)] ] |}.

(** Tool 3 : Translate text *)
Definition translate_text_schema : ZodType (string * (string * unit)) :=
  z_object
    (field "text" (z_string [str_min 1; str_max 10000])
    (field "targetLang" (z_string [str_length 2])
     no_more_fields)).

Definition translate_text (env : Env) : string * (string * unit) -> Async ToolResult :=
  fun '(text, (targetLang, _)) =>
    res <- global_fetch (TRANSLATE_ENDPOINT env ++ "?lang=" ++ targetLang)
             {| RequestInit.method := "POST";
                RequestInit.headers := [];
                RequestInit.body := Some text |} ;;
    if negb (Response.ok res) then throw (Error (Response.text res))
    else
      ret {| content := [ [("type", JStr "text"); ("text", JStr (Response.text res))] ] |}.

Definition buildServer (env : Env) : McpServer :=
  let mcp := new_McpServer "ToolHub" "1.0.0" in
  let mcp := tool mcp "generate_audio" generate_audio_schema (generate_audio env) in
  let mcp := tool mcp "generate_image" generate_image_schema (generate_image env) in
  let mcp := tool mcp "translate_text" translate_text_schema (translate_text env) in
  mcp.

(** *** Worker entry *)

(** The calls a request carries are dispatched in order, and no failure of a
    call escapes the dispatch boundary. *)
Fixpoint dispatch (mcp : McpServer) (calls : list (string * value))
  : Async (list CallOutcome) :=
  match calls with
  | [] => ret []
  | (name, args) :: rest =>
      outcome <- callTool mcp name args ;;
      outcomes <- dispatch mcp rest ;;
      ret (outcome :: outcomes)
  end.

(** [mcp.handle(request, env, ctx)], the entry of the library's transport. *)
Definition handle (mcp : McpServer) (request : Request.t) (env : Env)
  : Async Response.t :=
  outcomes <- dispatch mcp (decode_calls request) ;;
  ret (frame request outcomes).

(** The environment object, as it is now. *)
Definition read_env : Worker Env := fun _ st => (inr (isolate_env st), st).

(** [env.__SERVER ??= buildServer(env)], and the value of [env.__SERVER]
    after it. *)
Definition SERVER_nullish_assign : Worker McpServer :=
  fun _ st =>
    match __SERVER (isolate_env st) with
    | Some server => (inr server, st)
    | None =>
        let server := buildServer (isolate_env st) in
        (inr server,
         {| isolate_env := set_SERVER (isolate_env st) server;
            constructions := S (constructions st);
            outbound := outbound st |})
    end.

(** [fetch(request, env, ctx)].  [env] is the environment object of the
    isolate: it is read from the state and assigned in it; [ctx] is only
    passed on. *)
Definition fetch (request : Request.t) : Worker Response.t :=
  (* CORS pre-flight *)
  if Request.method request =? "OPTIONS"
  then ret (new_Response None 204 CORS_HEADERS)
  else
    (* shared-secret gate *)
    env <- read_env ;;
    let url := new_URL (Request.url request) in
    let token := URL.searchParams_get url "token"
                 ?? Headers_get (Request.headers request) "X-Api-Token" in
    if falsy token || strict_neq token (HUB_TOKEN env)
    then ret (json (JObj [("success", JBool false); ("error", JStr "Unauthorized")])
                   (Some 401))
    else
      (* build (or reuse) MCP server *)
      server <- SERVER_nullish_assign ;;
      (* all paths (/, /sse, etc.) delegated to MCP server *)
      env <- read_env ;;
      lift (handle server request env).

End Worker.

(** ** A process: requests served one after the other *)

Section Process.

Context {platform : Platform} {transport : Transport}.

(** The isolate serves the requests in order; a request whose handling
    throws does not stop the isolate. *)
Fixpoint serve (requests : list Request.t) (net : Network) (st : Isolate)
  : list (exn + Response.t) * Isolate :=
  match requests with
  | [] => ([], st)
  | request :: rest =>
      match fetch request net st with
      | (r, st') =>
          match serve rest net st' with
          | (rs, st'') => (r :: rs, st'')
          end
      end
  end.

(** A fresh isolate: nothing built, nothing called. *)
Definition fresh (env : Env) : Isolate :=
  {| isolate_env := env; constructions := 0; outbound := [] |}.

End Process.

(** ** The specification's vocabulary *)

(** A text between double quotes, none of whose characters needs an escape. *)
Definition quoted (s : string) : string := String dquote s ++ String dquote "".

(** The answer to an unauthorized request: HTTP 401 and the JSON body with
    [success] false and [error] Unauthorized. *)
Definition unauthorized_response : Response.t :=
  {| Response.status := 401;
     Response.headers :=
       [ ("Content-Type", "application/json");
         ("Access-Control-Allow-Origin", "*");
         ("Access-Control-Allow-Methods", "GET, POST, OPTIONS");
         ("Access-Control-Allow-Headers", "Content-Type, X-Api-Token");
         ("Access-Control-Max-Age", "86400") ];
     Response.body :=
       Some ("{" ++ quoted "success" ++ ":false," ++ quoted "error" ++ ":"
                 ++ quoted "Unauthorized" ++ "}") |}.

(** The answer to a pre-flight request: HTTP 204, no body, the CORS headers. *)
Definition preflight_response : Response.t :=
  {| Response.status := 204;
     Response.headers :=
       [ ("Access-Control-Allow-Origin", "*");
         ("Access-Control-Allow-Methods", "GET, POST, OPTIONS");
         ("Access-Control-Allow-Headers", "Content-Type, X-Api-Token");
         ("Access-Control-Max-Age", "86400") ];
     Response.body := None |}.

Section Vocabulary.

Context {platform : Platform}.

(** The [token] query parameter of a request, when it has one. *)
Definition query_token (request : Request.t) : option string :=
  URL.searchParams_get (new_URL (Request.url request)) "token".

(** The [X-Api-Token] header of a request, when it has one. *)
Definition header_token (request : Request.t) : option string :=
  Headers_get (Request.headers request) "X-Api-Token".

(** The credential a request presents: the query parameter before the
    header. *)
Definition extracted_token (request : Request.t) : option string :=
  match query_token request with
  | Some t => Some t
  | None => header_token request
  end.

(** A request that passes the gate: not a pre-flight, and presenting a
    non-empty token equal to the hub secret. *)
Definition authenticated (env : Env) (request : Request.t) : bool :=
  negb (Request.method request =? "OPTIONS")
  && match extracted_token request with
     | Some t => negb (t =? "") && (t =? HUB_TOKEN env)
     | None => false
     end.

End Vocabulary.

(** ** The specification's view of the tools *)

(** The fields each tool requires, and the length bounds of its strings. *)
Definition required_fields : list (string * string) :=
  [ ("generate_audio", "text"); ("generate_audio", "voiceId");
    ("generate_image", "prompt");
    ("translate_text", "text"); ("translate_text", "targetLang") ].

Definition string_bounds : list (string * string * (Z * Z)) :=
  [ ("generate_audio", "text", (1, 5000));
    ("generate_image", "prompt", (1, 800));
    ("translate_text", "text", (1, 10000)) ].

(** Raw arguments that violate the declared schema of a tool. *)
Inductive violates_schema : string -> value -> Prop :=
| required_field_missing (tool key : string) (props : object) :
    In (tool, key) required_fields ->
    lookup key props = None ->
    violates_schema tool (JObj props)
| string_out_of_bounds (tool key : string) (lo hi : Z) (props : object) (s : string) :
    In (tool, key, (lo, hi)) string_bounds ->
    get_prop props key = JStr s ->
    (js_length s < lo \/ hi < js_length s)%Z ->
    violates_schema tool (JObj props)
| steps_out_of_range (props : object) (n : Q) :
    get_prop props "steps" = JNum n ->
    ~ (exists k : Z, (1 <= k <= 100)%Z /\ (n == inject_Z k)%Q) ->
    violates_schema "generate_image" (JObj props)
| targetLang_wrong_length (props : object) (s : string) :
    get_prop props "targetLang" = JStr s ->
    js_length s <> 2%Z ->
    violates_schema "translate_text" (JObj props).

(** The environment with its three credentials replaced: the hub secret, the
    TTS token and the image key. *)
Definition with_credentials (env : Env) (hub tts key : string) : Env :=
  {| HUB_TOKEN := hub;
     TTS_ENDPOINT := TTS_ENDPOINT env;
     TTS_TOKEN := tts;
     IMAGE_ENDPOINT := IMAGE_ENDPOINT env;
     IMAGE_KEY := key;
     TRANSLATE_ENDPOINT := TRANSLATE_ENDPOINT env;
     __SERVER := __SERVER env |}.

(** Two runs whose downstream calls were answered alike: whatever call the
    first made under [net] and the second under [net'], the answers agree. *)
Definition answered_alike {A : Type} (net net' : Network)
    (run run' : (exn + A) * OutboundLog) : Prop :=
  forall call call',
    In call (snd run) -> In call' (snd run') ->
    net (fst call) (snd call) = net' (fst call') (snd call').

(** A computation that makes exactly one outbound call, the same whatever
    the network, and ends as [mapping] of the answer to it. *)
Definition one_call {A : Type} (call : Async A)
    (mapping : option Response.t -> exn + A) : Prop :=
  exists input init, forall net log,
    call net log = (mapping (net input init), (log ++ [(input, init)])%list).

(** The protocol-visible part of a registry: the names of its tools, each
    with its schema. *)
Definition catalog (mcp : McpServer) : list (string * {A : Type & ZodType A}) :=
  map (fun entry => (fst entry, existT ZodType (Args (snd entry)) (schema (snd entry))))
      (tools mcp).

(** The field of a JSON document under a key: its value when the document is
    an object that has the key, [undefined] otherwise. *)
Definition field_of (document : value) (key : string) : value :=
  match document with
  | JObj props =>
      match lookup key props with
      | Some v => v
      | None => JUndefined
      end
  | _ => JUndefined
  end.

Section Mappings.

Context {platform : Platform}.

(** The three content-block variants, for the answer [res] of the downstream:
    a text block carries a literal text, the fixed confirmation or the body
    of the answer; an audio block carries, as its URL, the [audioUrl] field
    of the answer's JSON document, and the MIME type audio/mpeg; an image
    block carries, as its URL, the [url] field of the answer's JSON document,
    and nothing else. *)
Inductive ContentBlock (res : Response.t) : object -> Prop :=
| text_block (text : string) :
    text = "Audio created successfully." \/ text = Response.text res ->
    ContentBlock res [("type", JStr "text"); ("text", JStr text)]
| audio_block (document : value) :
    JSON_parse (Response.text res) = Some document ->
    ContentBlock res [("type", JStr "audio");
                      ("url", field_of document "audioUrl");
                      ("mime_type", JStr "audio/mpeg")]
| image_block (document : value) :
    JSON_parse (Response.text res) = Some document ->
    ContentBlock res [("type", JStr "image"); ("url", field_of document "url")].

(** The success and failure mappings of the three forwarding policies: what
    a tool call yields for the answer of its downstream, [None] being a
    failure in transport.  They mention neither the environment nor the
    arguments of the call. *)
Definition audio_mapping (answer : option Response.t) : exn + ToolResult :=
  match answer with
  | None => inl NetworkFailure
  | Some res =>
      if Response.ok res then
        match JSON_parse (Response.text res) with
        | None => inl MalformedJSON
        | Some (JUndefined | JNull) => inl DestructureNullish
        | Some v =>
            inr {| content :=
                     [ [("type", JStr "text"); ("text", JStr "Audio created successfully.")];
                       [("type", JStr "audio");
                        ("url", match v with
                                | JObj props => get_prop props "audioUrl"
                                | _ => JUndefined
                                end);
                        ("mime_type", JStr "audio/mpeg")] ] |}
        end
      else inl (Error (Response.text res))
  end.

Definition image_mapping (answer : option Response.t) : exn + ToolResult :=
  match answer with
  | None => inl NetworkFailure
  | Some res =>
      if Response.ok res then
        match JSON_parse (Response.text res) with
        | None => inl MalformedJSON
        | Some (JUndefined | JNull) => inl DestructureNullish
        | Some v =>
            inr {| content :=
                     [ [("type", JStr "image");
                        ("url", match v with
                                | JObj props => get_prop props "url"
                                | _ => JUndefined
                                end)] ] |}
        end
      else inl (Error (Response.text res))
  end.

Definition text_mapping (answer : option Response.t) : exn + ToolResult :=
  match answer with
  | None => inl NetworkFailure
  | Some res =>
      if Response.ok res
      then inr {| content := [ [("type", JStr "text"); ("text", JStr (Response.text res))] ] |}
      else inl (Error (Response.text res))
  end.

Definition mappings : list (string * (option Response.t -> exn + ToolResult)) :=
  [ ("generate_audio", audio_mapping);
    ("generate_image", image_mapping);
    ("translate_text", text_mapping) ].

End Mappings.

(** ** A sample deployment, for concrete runs *)

Module Sample.

Fixpoint split_on (sep : ascii) (acc s : string) : list string :=
  match s with
  | EmptyString => [acc]
  | String c rest =>
      if Ascii.eqb c sep then acc :: split_on sep "" rest
      else split_on sep (acc ++ String c "") rest
  end.

Definition pair_of (s : string) : string * string :=
  match split_on "=" "" s with
  | [name] => (name, "")
  | name :: v :: _ => (name, v)
  | [] => ("", "")
  end.

(** Reads the query of a URL that needs no percent-decoding. *)
Definition parse_url (href : string) : URL.t :=
  match split_on "?" "" href with
  | _ :: query :: _ =>
      URL.mk href (map pair_of (filter (fun s => negb (s =? "")) (split_on "&" "" query)))
  | _ => URL.mk href []
  end.

Definition audio_document : string :=
  "{" ++ QuoteJSONString "audioUrl" ++ ":" ++ QuoteJSONString "https://x/a.mp3" ++ "}".

Definition image_document : string :=
  "{" ++ QuoteJSONString "url" ++ ":" ++ QuoteJSONString "https://x/i.png" ++ "}".

(** Reads the two documents the sample downstreams send. *)
Definition parse_json (s : string) : option value :=
  if s =? audio_document then Some (JObj [("audioUrl", JStr "https://x/a.mp3")])
  else if s =? image_document then Some (JObj [("url", JStr "https://x/i.png")])
  else None.

(** Prints the integers among the numbers. *)
Definition print_number (n : Q) : string :=
  NilZero.string_of_int (Z.to_int (Qnum n / Zpos (Qden n))).

Definition platform : Platform :=
  {| Number_toString := print_number;
     JSON_parse := parse_json;
     new_URL := parse_url |}.

(** A transport whose requests carry no tool call. *)
Definition transport : Transport :=
  {| decode_calls := fun _ => [];
     frame := fun _ _ => new_Response None 200 [] |}.

Definition env : Env :=
  {| HUB_TOKEN := "hub-secret";
     TTS_ENDPOINT := "https://tts.example/";
     TTS_TOKEN := "tts-secret";
     IMAGE_ENDPOINT := "https://image.example/";
     IMAGE_KEY := "image-key";
     TRANSLATE_ENDPOINT := "https://translate.example/";
     __SERVER := None |}.

(** Downstreams that answer every call alike. *)
Definition answers (status : Z) (body : string) : Network :=
  fun _ _ => Some (new_Response (Some body) status []).

Definition unreachable : Network := fun _ _ => None.

Definition no_token_request : Request.t :=
  Request.mk "GET" "https://hub.example/sse" [].

Definition wrong_token_request : Request.t :=
  Request.mk "POST" "https://hub.example/sse?token=guess" [].

(** An empty [token] parameter beside the right [X-Api-Token] header. *)
Definition empty_query_token_request : Request.t :=
  Request.mk "GET" "https://hub.example/sse?token=" [("X-Api-Token", "hub-secret")].

Definition preflight_request : Request.t :=
  Request.mk "OPTIONS" "https://hub.example/sse" [].

Definition authorized_request : Request.t :=
  Request.mk "GET" "https://hub.example/sse?token=hub-secret" [].

Definition audio_args : string * (string * (string * unit)) :=
  ("Hello", ("voice-1", ("eleven_turbo_v2", tt))).

Definition image_args : string * (Q * unit) := ("a cat", (30%Q, tt)).

Definition audio_definition : ToolDefinition :=
  {| Args := _; schema := generate_audio_schema; handler := @generate_audio platform env |}.

Definition image_definition : ToolDefinition :=
  {| Args := _; schema := generate_image_schema; handler := @generate_image platform env |}.

(** The secret in the header, and no [token] parameter. *)
Definition header_token_request : Request.t :=
  Request.mk "POST" "https://hub.example/sse" [("x-api-token", "hub-secret")].

(** A wrong [token] parameter beside the right header. *)
Definition wrong_query_right_header_request : Request.t :=
  Request.mk "GET" "https://hub.example/sse?token=guess" [("X-Api-Token", "hub-secret")].

(** A request that presents the empty token twice. *)
Definition empty_tokens_request : Request.t :=
  Request.mk "GET" "https://hub.example/sse?token=" [("X-Api-Token", "")].

(** The deployment with an empty hub secret. *)
Definition env_without_secret : Env :=
  with_credentials env "" "tts-secret" "image-key".

Definition translate_args : string * (string * unit) := ("Hello", ("fr", tt)).

Definition translate_definition : ToolDefinition :=
  {| Args := _; schema := translate_text_schema; handler := @translate_text env |}.

End Sample.

(** ** Properties of the gate *)

Section Gate.

Context {platform : Platform} {transport : Transport}.

Lemma fetch_not_preflight (request : Request.t) (net : Network) (st : Isolate) :
  Request.method request <> "OPTIONS" ->
  fetch request net st =
    (if falsy (extracted_token request)
        || strict_neq (extracted_token request) (HUB_TOKEN (isolate_env st))
     then ret unauthorized_response
     else server <- SERVER_nullish_assign ;;
          env <- read_env ;;
          lift (handle server request env)) net st.
Proof.
  intros Hmethod. unfold fetch.
  destruct (String.eqb_spec (Request.method request) "OPTIONS") as [E | _];
    [contradiction |].
  unfold bind at 1, read_env at 1.
  replace (URL.searchParams_get (new_URL (Request.url request)) "token"
           ?? Headers_get (Request.headers request) "X-Api-Token")
    with (extracted_token request)
    by (unfold extracted_token, query_token, header_token, nullish;
        now destruct URL.searchParams_get).
  now destruct (falsy _ || strict_neq _ _).
Qed.

Lemma fetch_preflight (request : Request.t) (net : Network) (st : Isolate) :
  Request.method request = "OPTIONS" ->
  fetch request net st = (inr (new_Response None 204 CORS_HEADERS), st).
Proof. intros Hmethod. unfold fetch. now rewrite Hmethod. Qed.

Lemma strict_neq_true (token : option string) (secret : string) :
  token <> Some secret -> strict_neq token secret = true.
Proof.
  destruct token as [t |]; simpl; [| reflexivity].
  intros Hne. destruct (String.eqb_spec t secret); [subst; contradiction | reflexivity].
Qed.

(** C1. A request that is not a pre-flight and either carries neither the
    [token] query parameter nor the [X-Api-Token] header, or presents a
    token other than the hub secret, is answered with HTTP 401 and the
    Unauthorized body, and the isolate is left as it was: no outbound call
    is logged, [buildServer] has not run and the cache handle is untouched. *)
Theorem unauthorized_request_is_rejected
    (request : Request.t) (net : Network) (st : Isolate) :
  Request.method request <> "OPTIONS" ->
  (query_token request = None /\ header_token request = None)
  \/ extracted_token request <> Some (HUB_TOKEN (isolate_env st)) ->
  fetch request net st = (inr unauthorized_response, st).
Proof.
  intros Hmethod Htoken.
  rewrite fetch_not_preflight by assumption.
  assert (Hne : extracted_token request <> Some (HUB_TOKEN (isolate_env st))).
  { destruct Htoken as [[Hq Hh] | Hne]; [| exact Hne].
    unfold extracted_token. rewrite Hq, Hh. discriminate. }
  rewrite (strict_neq_true _ _ Hne), orb_true_r. reflexivity.
Qed.

(** C10. A request that is not a pre-flight and whose [token] query
    parameter is present with an empty value is answered with HTTP 401
    whatever its [X-Api-Token] header holds: the empty query value is the
    extracted token, the header is not consulted, and the isolate is left
    as it was. *)
Theorem empty_query_token_is_rejected
    (request : Request.t) (net : Network) (st : Isolate) :
  Request.method request <> "OPTIONS" ->
  query_token request = Some "" ->
  extracted_token request = Some ""
  /\ fetch request net st = (inr unauthorized_response, st).
Proof.
  intros Hmethod Hq.
  assert (Hx : extracted_token request = Some "")
    by (unfold extracted_token; now rewrite Hq).
  split; [exact Hx |].
  rewrite fetch_not_preflight by assumption.
  rewrite Hx. reflexivity.
Qed.

(** C6, as amended. A request whose method is OPTIONS is answered with HTTP
    204, no body and exactly the four CORS headers, whatever token it
    carries and whatever the hub secret is, and the isolate is left as it
    was. *)
Theorem preflight_is_answered_without_the_gate
    (request : Request.t) (net : Network) (st : Isolate) :
  Request.method request = "OPTIONS" ->
  fetch request net st = (inr preflight_response, st).
Proof.
  intros Hmethod. now rewrite fetch_preflight.
Qed.

End Gate.

(** ** Properties of the schemas *)

Section Schemas.

Lemma parseShape_field_rejected {A B : Type} (key : string) (type : ZodType A)
    (rest : ZodShape B) (props : object) :
  safeParse type (get_prop props key) = None ->
  parseShape (field key type rest) props = None.
Proof. intros Hfield. cbn [parseShape]. now rewrite Hfield. Qed.

Lemma parseShape_rest_rejected {A B : Type} (key : string) (type : ZodType A)
    (rest : ZodShape B) (props : object) :
  parseShape rest props = None ->
  parseShape (field key type rest) props = None.
Proof.
  intros Hrest. cbn [parseShape]. rewrite Hrest.
  now destruct (safeParse type (get_prop props key)).
Qed.

Lemma get_prop_missing (props : object) (key : string) :
  lookup key props = None -> get_prop props key = JUndefined.
Proof. intros Hmissing. unfold get_prop. now rewrite Hmissing. Qed.

Lemma bounded_string_rejected (lo hi : Z) (s : string) :
  (js_length s < lo \/ hi < js_length s)%Z ->
  safeParse (z_string [str_min lo; str_max hi]) (JStr s) = None.
Proof.
  intros Hlen. cbn.
  destruct (Z.leb_spec lo (js_length s)); [| reflexivity].
  destruct (Z.leb_spec (js_length s) hi); [lia | reflexivity].
Qed.

Lemma fixed_length_string_rejected (n : Z) (s : string) :
  js_length s <> n ->
  safeParse (z_string [str_length n]) (JStr s) = None.
Proof.
  intros Hlen. cbn.
  destruct (Z.eqb_spec (js_length s) n); [contradiction | reflexivity].
Qed.

Lemma isInteger_spec (n : Q) :
  isInteger n = true -> (n == inject_Z (Qnum n / Zpos (Qden n)))%Q.
Proof.
  unfold isInteger. intros Hmod. apply Z.eqb_eq in Hmod.
  unfold Qeq. cbn [Qnum Qden inject_Z].
  pose proof (Z.div_mod (Qnum n) (Zpos (Qden n))) as Hdiv.
  rewrite Hmod in Hdiv. lia.
Qed.

Lemma integer_range_accepted (lo hi : Z) (n : Q) :
  forallb (check_number n) [num_int; num_min (inject_Z lo); num_max (inject_Z hi)] = true ->
  exists k : Z, (lo <= k <= hi)%Z /\ (n == inject_Z k)%Q.
Proof.
  cbn. intros Hchecks.
  apply andb_prop in Hchecks as [Hint Hchecks].
  apply andb_prop in Hchecks as [Hmin Hchecks].
  apply andb_prop in Hchecks as [Hmax _].
  apply isInteger_spec in Hint.
  apply Qle_bool_iff in Hmin, Hmax.
  rewrite Hint in Hmin, Hmax.
  rewrite <- Zle_Qle in Hmin, Hmax.
  eauto.
Qed.

Lemma steps_rejected (n : Q) :
  ~ (exists k : Z, (1 <= k <= 100)%Z /\ (n == inject_Z k)%Q) ->
  safeParse (z_default (z_number [num_int; num_min 1; num_max 100]) 30%Q) (JNum n) = None.
Proof.
  intros Hout. cbn [safeParse].
  destruct (forallb (check_number n) [num_int; num_min 1; num_max 100]) eqn:Hchecks;
    [| reflexivity].
  exfalso. apply Hout. now apply (integer_range_accepted 1 100).
Qed.

End Schemas.

(** ** Properties of the handlers *)

Section Handlers.

Context {platform : Platform}.

Lemma generate_audio_run (env : Env) (validated : string * (string * (string * unit))) :
  one_call (generate_audio env validated) audio_mapping.
Proof.
  destruct validated as [text [voiceId [modelId []]]].
  unfold one_call, generate_audio.
  match goal with |- context [global_fetch ?i ?r] => exists i, r end.
  intros net log. unfold bind, global_fetch, audio_mapping.
  destruct (net _ _) as [res |]; [| reflexivity].
  destruct (Response.ok res); simpl; [| reflexivity].
  unfold Response_json.
  destruct (JSON_parse (Response.text res)) as [[] |]; reflexivity.
Qed.

Lemma generate_image_run (env : Env) (validated : string * (Q * unit)) :
  one_call (generate_image env validated) image_mapping.
Proof.
  destruct validated as [prompt [steps []]].
  unfold one_call, generate_image.
  match goal with |- context [global_fetch ?i ?r] => exists i, r end.
  intros net log. unfold bind, global_fetch, image_mapping.
  destruct (net _ _) as [res |]; [| reflexivity].
  destruct (Response.ok res); simpl; [| reflexivity].
  unfold Response_json.
  destruct (JSON_parse (Response.text res)) as [[] |]; reflexivity.
Qed.

Lemma translate_text_run (env : Env) (validated : string * (string * unit)) :
  one_call (translate_text env validated) text_mapping.
Proof.
  destruct validated as [text [targetLang []]].
  unfold one_call, translate_text.
  match goal with |- context [global_fetch ?i ?r] => exists i, r end.
  intros net log. unfold bind, global_fetch, text_mapping.
  destruct (net _ _) as [res |]; [| reflexivity].
  destruct (Response.ok res); reflexivity.
Qed.

(** The registry of the built server, entry by entry. *)
Lemma lookup_generate_audio (env : Env) :
  lookup "generate_audio" (tools (buildServer env))
  = Some {| Args := _; schema := generate_audio_schema; handler := generate_audio env |}.
Proof. reflexivity. Qed.

Lemma lookup_generate_image (env : Env) :
  lookup "generate_image" (tools (buildServer env))
  = Some {| Args := _; schema := generate_image_schema; handler := generate_image env |}.
Proof. reflexivity. Qed.

Lemma lookup_translate_text (env : Env) :
  lookup "translate_text" (tools (buildServer env))
  = Some {| Args := _; schema := translate_text_schema; handler := translate_text env |}.
Proof. reflexivity. Qed.

(** Every handler the built server registers makes one call and ends as the
    mapping of its tool. *)
Lemma registered_handler_run (env : Env) (name : string) (definition : ToolDefinition) :
  In (name, definition) (tools (buildServer env)) ->
  exists mapping,
    In (name, mapping) mappings
    /\ forall validated, one_call (handler definition validated) mapping.
Proof.
  cbn [buildServer tool new_McpServer tools app In].
  intros [E | [E | [E | []]]]; injection E as <- <-; cbn [handler Args].
  - exists audio_mapping. split; [now left | apply generate_audio_run].
  - exists image_mapping. split; [now right; left | apply generate_image_run].
  - exists text_mapping. split; [now right; right; left | apply translate_text_run].
Qed.

Lemma not_ok (res : Response.t) :
  (Response.status res < 200 \/ 299 < Response.status res)%Z ->
  Response.ok res = false.
Proof.
  intros Hstatus. unfold Response.ok.
  destruct (Z.leb_spec 200 (Response.status res)); [| reflexivity].
  destruct (Z.leb_spec (Response.status res) 299); [lia | reflexivity].
Qed.

Lemma mapping_of_failure (name : string)
    (mapping : option Response.t -> exn + ToolResult) (res : Response.t) :
  In (name, mapping) mappings ->
  Response.ok res = false ->
  mapping (Some res) = inl (Error (Response.text res)).
Proof.
  intros [E | [E | [E | []]]] Hok; injection E as _ <-; cbn; now rewrite Hok.
Qed.

Lemma mapping_blocks (name : string)
    (mapping : option Response.t -> exn + ToolResult)
    (answer : option Response.t) (result : ToolResult) :
  In (name, mapping) mappings ->
  mapping answer = inr result ->
  exists res, answer = Some res /\ Forall (ContentBlock res) (content result).
Proof.
  intros [E | [E | [E | []]]]; injection E as _ <-;
    unfold audio_mapping, image_mapping, text_mapping;
    destruct answer as [res |]; try discriminate;
    destruct (Response.ok res); try discriminate;
    try (destruct (JSON_parse (Response.text res)) as [document |] eqn:Hjson;
         [| discriminate]; destruct document; try discriminate);
    intros [= <-]; exists res; (split; [reflexivity |]); cbn [content].
  all: repeat first
         [ apply Forall_nil
         | apply Forall_cons
         | apply text_block; auto
         | match goal with
           | H : JSON_parse _ = Some ?d |- ContentBlock _ [_; ("url", _); _] =>
               exact (audio_block res d H)
           | H : JSON_parse _ = Some ?d |- ContentBlock _ [_; ("url", _)] =>
               exact (image_block res d H)
           end ].
Qed.

(** The one call of a run decides its end. *)
Lemma one_call_inversion {A : Type} (call : Async A)
    (mapping : option Response.t -> exn + A)
    (net : Network) (log : OutboundLog) (outcome : exn + A)
    (input : string) (init : RequestInit.t) :
  one_call call mapping ->
  call net log = (outcome, (log ++ [(input, init)])%list) ->
  outcome = mapping (net input init).
Proof.
  intros (input0 & init0 & Hcall) Hrun.
  rewrite Hcall in Hrun. injection Hrun as Houtcome Hlog.
  apply app_inv_head in Hlog. injection Hlog as -> ->. now symmetry.
Qed.

Lemma one_call_alike {A : Type} (call call' : Async A)
    (mapping : option Response.t -> exn + A) (net net' : Network) :
  one_call call mapping ->
  one_call call' mapping ->
  answered_alike net net' (call net []) (call' net' []) ->
  fst (call net []) = fst (call' net' []).
Proof.
  intros (input & init & Hcall) (input' & init' & Hcall') Halike.
  unfold answered_alike in Halike. rewrite Hcall, Hcall' in *.
  cbn [fst snd app] in *.
  specialize (Halike (input, init) (input', init')). cbn [fst snd] in Halike.
  now rewrite Halike by (now left).
Qed.

End Handlers.

(** ** The claims about tool calls *)

Section ToolCalls.

Context {platform : Platform}.

Lemma violation_is_rejected (env : Env) (tool : string) (args : value) :
  violates_schema tool args ->
  exists definition,
    lookup tool (tools (buildServer env)) = Some definition
    /\ safeParse (schema definition) args = None.
Proof.
  intros Hviolates.
  destruct Hviolates as [tool key props Hin Hmissing
                        | tool key lo hi props s Hin Hget Hlen
                        | props n Hget Hout
                        | props s Hget Hlen].
  - apply get_prop_missing in Hmissing.
    cbn [In required_fields] in Hin.
    destruct Hin as [E | [E | [E | [E | [E | []]]]]]; inversion E; subst tool key;
      (eexists; split; [reflexivity |]);
      cbn [schema safeParse generate_audio_schema generate_image_schema
             translate_text_schema].
    + apply parseShape_field_rejected. now rewrite Hmissing.
    + apply parseShape_rest_rejected, parseShape_field_rejected. now rewrite Hmissing.
    + apply parseShape_field_rejected. now rewrite Hmissing.
    + apply parseShape_field_rejected. now rewrite Hmissing.
    + apply parseShape_rest_rejected, parseShape_field_rejected. now rewrite Hmissing.
  - cbn [In string_bounds] in Hin.
    destruct Hin as [E | [E | [E | []]]]; inversion E; subst tool key lo hi;
      (eexists; split; [reflexivity |]);
      cbn [schema safeParse generate_audio_schema generate_image_schema
             translate_text_schema];
      apply parseShape_field_rejected; rewrite Hget;
      now apply bounded_string_rejected.
  - eexists; split; [reflexivity |].
    cbn [schema safeParse generate_image_schema].
    apply parseShape_rest_rejected, parseShape_field_rejected. rewrite Hget.
    now apply steps_rejected.
  - eexists; split; [reflexivity |].
    cbn [schema safeParse translate_text_schema].
    apply parseShape_rest_rejected, parseShape_field_rejected. rewrite Hget.
    now apply fixed_length_string_rejected.
Qed.

(** C2. When the raw arguments of a call violate the declared schema of its
    tool (a required field is missing, a string is shorter or longer than
    its bounds, [steps] is not an integer from 1 to 100, or [targetLang] is
    not two characters long), the schema registered for the tool rejects
    them, the call ends as a validation failure, and the log of outbound
    calls is unchanged: the handler has not run. *)
Theorem invalid_arguments_never_reach_the_handler
    (env : Env) (tool : string) (args : value) (net : Network) (log : OutboundLog) :
  violates_schema tool args ->
  (exists definition,
      lookup tool (tools (buildServer env)) = Some definition
      /\ safeParse (schema definition) args = None)
  /\ callTool (buildServer env) tool args net log = (inr ValidationFailed, log).
Proof.
  intros Hviolates.
  destruct (violation_is_rejected env tool args Hviolates)
    as (definition & Hlookup & Hrejected).
  split; [now exists definition |].
  unfold callTool. now rewrite Hlookup, Hrejected.
Qed.

(** C3. For each of the three registered tools: the handler makes its one
    downstream call, and whenever that call is answered with a status
    outside 200-299, the handler throws, so the call yields no result, and
    the message of the failure is the body of the downstream's answer. *)
Theorem downstream_failure_is_surfaced
    (env : Env) (name : string) (definition : ToolDefinition)
    (validated : Args definition) :
  In (name, definition) (tools (buildServer env)) ->
  exists input init, forall net log,
    snd (handler definition validated net log) = (log ++ [(input, init)])%list
    /\ forall res,
         net input init = Some res ->
         (Response.status res < 200 \/ 299 < Response.status res)%Z ->
         fst (handler definition validated net log)
         = inl (Error (Response.text res)).
Proof.
  intros Hregistered.
  apply registered_handler_run in Hregistered as (mapping & Hmapping & Hcall).
  destruct (Hcall validated) as (input & init & Hone).
  exists input, init. intros net log. rewrite Hone.
  split; [reflexivity |].
  intros res Hanswer Hstatus. cbn [fst]. rewrite Hanswer.
  apply (mapping_of_failure name); [assumption | now apply not_ok].
Qed.

(** C4. Whenever the downstream call of the [generate_audio] handler is
    answered with HTTP 200 and a JSON object that has an [audioUrl] field,
    the handler returns exactly two content blocks, in this order: the text
    block with the fixed confirmation text, then the audio block whose URL
    is that field and whose MIME type is audio/mpeg. *)
Theorem generate_audio_returns_the_audio_url
    (env : Env) (validated : string * (string * (string * unit)))
    (net : Network) (log : OutboundLog)
    (outcome : exn + ToolResult) (input : string) (init : RequestInit.t)
    (res : Response.t) (props : object) (audioUrl : value) :
  generate_audio env validated net log = (outcome, (log ++ [(input, init)])%list) ->
  net input init = Some res ->
  Response.status res = 200%Z ->
  JSON_parse (Response.text res) = Some (JObj props) ->
  lookup "audioUrl" props = Some audioUrl ->
  outcome
  = inr {| content :=
             [ [("type", JStr "text"); ("text", JStr "Audio created successfully.")];
               [("type", JStr "audio"); ("url", audioUrl);
                ("mime_type", JStr "audio/mpeg")] ] |}.
Proof.
  intros Hrun Hanswer Hstatus Hjson Hfield.
  rewrite (one_call_inversion _ _ _ _ _ _ _ (generate_audio_run env validated) Hrun).
  rewrite Hanswer. unfold audio_mapping, Response.ok, get_prop.
  now rewrite Hstatus, Hjson, Hfield.
Qed.

(** C7, as amended. Every result that the handler of a registered tool
    returns was made from the answer to the handler's one downstream call,
    and every content block of it is one of three variants: a text block
    carrying a literal text, an audio block carrying the MIME type audio/mpeg
    and, as its URL, the [audioUrl] field of the answer, or an image block
    carrying, as its URL, the [url] field of the answer and no MIME or media
    type.  The URL is thus the one the downstream resolved whenever the
    answer has the field, and undefined when it has not. *)
Theorem content_blocks_are_of_three_variants
    (env : Env) (name : string) (definition : ToolDefinition)
    (validated : Args definition) (net : Network)
    (log log' : OutboundLog) (result : ToolResult) :
  In (name, definition) (tools (buildServer env)) ->
  handler definition validated net log = (inr result, log') ->
  exists input init res,
    log' = (log ++ [(input, init)])%list
    /\ net input init = Some res
    /\ Forall (ContentBlock res) (content result).
Proof.
  intros Hregistered Hrun.
  apply registered_handler_run in Hregistered as (mapping & Hmapping & Hcall).
  destruct (Hcall validated) as (input & init & Hone).
  rewrite Hone in Hrun. injection Hrun as Hresult Hlog.
  destruct (mapping_blocks name mapping _ result Hmapping Hresult)
    as (res & Hanswer & Hblocks).
  exists input, init, res. now repeat split.
Qed.

Lemma within_bounds (lo hi : Z) (s : string) :
  (lo <= js_length s <= hi)%Z ->
  forallb (check_string s) [str_min lo; str_max hi] = true.
Proof.
  intros [Hlo Hhi]. cbn.
  apply Z.leb_le in Hlo, Hhi. now rewrite Hlo, Hhi.
Qed.

Lemma generate_audio_call (env : Env) (text voiceId modelId : string)
    (net : Network) (log : OutboundLog) :
  snd (generate_audio env (text, (voiceId, (modelId, tt))) net log)
  = (log ++ [ ((TTS_ENDPOINT env ++ "?token=" ++ TTS_TOKEN env)%string,
               {| RequestInit.method := "POST";
                  RequestInit.headers := [("Content-Type", "application/json")];
                  RequestInit.body :=
                    JSON_stringify
                      (JObj [("text", JStr text);
                             ("voiceId", JStr voiceId);
                             ("modelId", JStr modelId)]) |}) ])%list.
Proof.
  unfold generate_audio, bind, global_fetch.
  destruct (net _ _) as [res |]; [| reflexivity].
  destruct (Response.ok res); [| reflexivity].
  cbn [negb]. unfold Response_json.
  destruct (JSON_parse (Response.text res)) as [[] |]; reflexivity.
Qed.

Lemma generate_image_call (env : Env) (prompt : string) (steps : Q)
    (net : Network) (log : OutboundLog) :
  snd (generate_image env (prompt, (steps, tt)) net log)
  = (log ++ [ (IMAGE_ENDPOINT env,
               {| RequestInit.method := "POST";
                  RequestInit.headers :=
                    [("Authorization", ("Bearer " ++ IMAGE_KEY env)%string);
                     ("Content-Type", "application/json")];
                  RequestInit.body :=
                    JSON_stringify
                      (JObj [("prompt", JStr prompt);
                             ("steps", JNum steps)]) |}) ])%list.
Proof.
  unfold generate_image, bind, global_fetch.
  destruct (net _ _) as [res |]; [| reflexivity].
  destruct (Response.ok res); [| reflexivity].
  cbn [negb]. unfold Response_json.
  destruct (JSON_parse (Response.text res)) as [[] |]; reflexivity.
Qed.

(** C5. Raw [generate_audio] arguments with a valid [text] and [voiceId] and
    no [modelId] pass the schema, and the handler run on what the schema
    yields sends a body whose [modelId] field is eleven_turbo_v2; raw
    [generate_image] arguments with a valid [prompt] and no [steps] pass the
    schema, and the handler sends a body whose [steps] field is 30.  In both
    cases the one outbound call carries the JSON text of the object with
    the default filled in. *)
Theorem omitted_fields_take_their_defaults
    (env : Env) (net : Network) (log : OutboundLog) :
  (forall (props : object) (text voiceId : string),
      get_prop props "text" = JStr text ->
      (1 <= js_length text <= 5000)%Z ->
      get_prop props "voiceId" = JStr voiceId ->
      lookup "modelId" props = None ->
      exists validated,
        safeParse generate_audio_schema (JObj props) = Some validated
        /\ snd (generate_audio env validated net log)
           = (log ++ [ ((TTS_ENDPOINT env ++ "?token=" ++ TTS_TOKEN env)%string,
                        {| RequestInit.method := "POST";
                           RequestInit.headers := [("Content-Type", "application/json")];
                           RequestInit.body :=
                             JSON_stringify
                               (JObj [("text", JStr text);
                                      ("voiceId", JStr voiceId);
                                      ("modelId", JStr "eleven_turbo_v2")]) |}) ])%list)
  /\ (forall (props : object) (prompt : string),
         get_prop props "prompt" = JStr prompt ->
         (1 <= js_length prompt <= 800)%Z ->
         lookup "steps" props = None ->
         exists validated,
           safeParse generate_image_schema (JObj props) = Some validated
           /\ snd (generate_image env validated net log)
              = (log ++ [ (IMAGE_ENDPOINT env,
                           {| RequestInit.method := "POST";
                              RequestInit.headers :=
                                [("Authorization", ("Bearer " ++ IMAGE_KEY env)%string);
                                 ("Content-Type", "application/json")];
                              RequestInit.body :=
                                JSON_stringify
                                  (JObj [("prompt", JStr prompt);
                                         ("steps", JNum 30)]) |}) ])%list).
Proof.
  split.
  - intros props text voiceId Htext Hlen Hvoice Hmodel.
    exists (text, (voiceId, ("eleven_turbo_v2", tt))). split.
    + cbn [safeParse parseShape generate_audio_schema].
      rewrite Htext, Hvoice, (get_prop_missing _ _ Hmodel).
      now rewrite (within_bounds 1 5000 text Hlen).
    + apply generate_audio_call.
  - intros props prompt Hprompt Hlen Hsteps.
    exists (prompt, (30%Q, tt)). split.
    + cbn [safeParse parseShape generate_image_schema].
      rewrite Hprompt, (get_prop_missing _ _ Hsteps).
      now rewrite (within_bounds 1 800 prompt Hlen).
    + apply generate_image_call.
Qed.

(** C9. For each of the three handlers: two runs on the same validated
    arguments under environments that differ only in their credentials (the
    hub secret, the TTS token and the image key), and whose downstream calls
    are answered alike, end alike: with the same content blocks, or with
    the same failure. *)
Theorem outcome_is_independent_of_credentials
    (env : Env) (hub tts key hub' tts' key' : string) (net net' : Network) :
  (forall validated,
      answered_alike net net'
        (generate_audio (with_credentials env hub tts key) validated net [])
        (generate_audio (with_credentials env hub' tts' key') validated net' []) ->
      fst (generate_audio (with_credentials env hub tts key) validated net [])
      = fst (generate_audio (with_credentials env hub' tts' key') validated net' []))
  /\ (forall validated,
         answered_alike net net'
           (generate_image (with_credentials env hub tts key) validated net [])
           (generate_image (with_credentials env hub' tts' key') validated net' []) ->
         fst (generate_image (with_credentials env hub tts key) validated net [])
         = fst (generate_image (with_credentials env hub' tts' key') validated net' []))
  /\ (forall validated,
         answered_alike net net'
           (translate_text (with_credentials env hub tts key) validated net [])
           (translate_text (with_credentials env hub' tts' key') validated net' []) ->
         fst (translate_text (with_credentials env hub tts key) validated net [])
         = fst (translate_text (with_credentials env hub' tts' key') validated net' [])).
Proof.
  repeat split; intros validated Halike.
  - apply (one_call_alike _ _ audio_mapping net net');
      [apply generate_audio_run | apply generate_audio_run | exact Halike].
  - apply (one_call_alike _ _ image_mapping net net');
      [apply generate_image_run | apply generate_image_run | exact Halike].
  - apply (one_call_alike _ _ text_mapping net net');
      [apply translate_text_run | apply translate_text_run | exact Halike].
Qed.

End ToolCalls.

(** ** The lifecycle of the cached server *)

Section Lifecycle.

Context {platform : Platform} {transport : Transport}.

Lemma gate_authenticated (env : Env) (request : Request.t) :
  Request.method request <> "OPTIONS" ->
  falsy (extracted_token request) || strict_neq (extracted_token request) (HUB_TOKEN env)
  = negb (authenticated env request).
Proof.
  intros Hmethod. unfold authenticated.
  rewrite (proj2 (String.eqb_neq _ _) Hmethod).
  destruct (extracted_token request) as [t |]; [| reflexivity].
  cbn. now destruct (t =? ""), (t =? HUB_TOKEN env).
Qed.

Lemma preflight_not_authenticated (env : Env) (request : Request.t) :
  Request.method request = "OPTIONS" -> authenticated env request = false.
Proof. intros Hmethod. unfold authenticated. now rewrite Hmethod. Qed.

Lemma authenticated_not_preflight (env : Env) (request : Request.t) :
  authenticated env request = true -> Request.method request <> "OPTIONS".
Proof.
  intros Hpasses Hmethod.
  now rewrite (preflight_not_authenticated _ _ Hmethod) in Hpasses.
Qed.

(** A request that passes the gate and finds the handle set is handled by the
    server the handle holds. *)
Lemma fetch_reuses (request : Request.t) (net : Network) (st : Isolate)
    (server : McpServer) :
  authenticated (isolate_env st) request = true ->
  __SERVER (isolate_env st) = Some server ->
  fetch request net st = lift (handle server request (isolate_env st)) net st.
Proof.
  intros Hpasses Hcached.
  rewrite fetch_not_preflight by (now apply authenticated_not_preflight with (isolate_env st)).
  rewrite gate_authenticated by (now apply authenticated_not_preflight with (isolate_env st)).
  rewrite Hpasses. cbn [negb].
  unfold bind, SERVER_nullish_assign, read_env. now rewrite Hcached.
Qed.

(** What one request does to the isolate's environment and to the count of
    constructions. *)
Lemma fetch_step (request : Request.t) (net : Network) (st : Isolate) :
  if authenticated (isolate_env st) request then
    match __SERVER (isolate_env st) with
    | Some _ =>
        isolate_env (snd (fetch request net st)) = isolate_env st
        /\ constructions (snd (fetch request net st)) = constructions st
    | None =>
        isolate_env (snd (fetch request net st))
        = set_SERVER (isolate_env st) (buildServer (isolate_env st))
        /\ constructions (snd (fetch request net st)) = S (constructions st)
    end
  else snd (fetch request net st) = st.
Proof.
  destruct (String.eqb_spec (Request.method request) "OPTIONS") as [Hmethod | Hmethod].
  { rewrite (preflight_not_authenticated _ _ Hmethod).
    now rewrite fetch_preflight. }
  rewrite fetch_not_preflight by assumption.
  rewrite gate_authenticated by assumption.
  destruct (authenticated (isolate_env st) request); cbn [negb]; [| reflexivity].
  unfold bind, SERVER_nullish_assign, read_env, lift.
  destruct (__SERVER (isolate_env st)) as [server |]; cbn [isolate_env outbound];
    destruct (handle _ _ _ _ _); now cbn.
Qed.

Lemma serve_from (requests : list Request.t) (net : Network) (st : Isolate) :
  match __SERVER (isolate_env st) with
  | Some _ =>
      isolate_env (snd (serve requests net st)) = isolate_env st
      /\ constructions (snd (serve requests net st)) = constructions st
  | None =>
      if existsb (authenticated (isolate_env st)) requests then
        isolate_env (snd (serve requests net st))
        = set_SERVER (isolate_env st) (buildServer (isolate_env st))
        /\ constructions (snd (serve requests net st)) = S (constructions st)
      else
        isolate_env (snd (serve requests net st)) = isolate_env st
        /\ constructions (snd (serve requests net st)) = constructions st
  end.
Proof.
  revert st. induction requests as [| request rest IH]; intros st.
  - cbn. now destruct (__SERVER (isolate_env st)).
  - cbn [serve existsb].
    pose proof (fetch_step request net st) as Hstep.
    destruct (fetch request net st) as [r st1]. cbn [snd] in Hstep.
    specialize (IH st1).
    destruct (serve rest net st1) as [rs st2]. cbn [snd] in IH |- *.
    destruct (__SERVER (isolate_env st)) as [server |] eqn:Hcache.
    + assert (Henv : isolate_env st1 = isolate_env st /\ constructions st1 = constructions st)
        by (destruct (authenticated _ _); [exact Hstep | now subst st1]).
      destruct Henv as [Henv Hcount].
      rewrite Henv, Hcache, Hcount in IH. exact IH.
    + destruct (authenticated (isolate_env st) request); cbn [orb].
      * destruct Hstep as [Henv Hcount].
        rewrite Henv, Hcount in IH. cbn [set_SERVER __SERVER] in IH. exact IH.
      * subst st1. now rewrite Hcache in IH.
Qed.

(** C8. The server is built lazily and at most once per isolate.  A request
    that passes the gate while the cache handle is empty builds the server
    from the environment and stores it; any request that finds the handle
    set leaves it as it is and builds nothing, and is handled, when it passes
    the gate, by the server the handle holds; over any sequence of requests
    served by a fresh isolate [buildServer] runs once if some request passes
    the gate and never otherwise, and the handle then holds the server built
    from the environment; and whatever the environment, the registry that
    [buildServer] returns has the same three tools with the same schemas. *)
Theorem server_is_built_at_most_once :
  (forall request net st,
      authenticated (isolate_env st) request = true ->
      __SERVER (isolate_env st) = None ->
      __SERVER (isolate_env (snd (fetch request net st)))
      = Some (buildServer (isolate_env st))
      /\ constructions (snd (fetch request net st)) = S (constructions st))
  /\ (forall request net st server,
         __SERVER (isolate_env st) = Some server ->
         __SERVER (isolate_env (snd (fetch request net st))) = Some server
         /\ constructions (snd (fetch request net st)) = constructions st
         /\ (authenticated (isolate_env st) request = true ->
             fetch request net st
             = lift (handle server request (isolate_env st)) net st))
  /\ (forall requests net env,
         __SERVER env = None ->
         constructions (snd (serve requests net (fresh env)))
         = (if existsb (authenticated env) requests then 1 else 0)%nat
         /\ __SERVER (isolate_env (snd (serve requests net (fresh env))))
            = (if existsb (authenticated env) requests
               then Some (buildServer env) else None))
  /\ (forall env,
         catalog (buildServer env)
         = [ ("generate_audio", existT ZodType _ generate_audio_schema);
             ("generate_image", existT ZodType _ generate_image_schema);
             ("translate_text", existT ZodType _ translate_text_schema) ]).
Proof.
  split; [| split; [| split]].
  - intros request net st Hpasses Hempty.
    pose proof (fetch_step request net st) as Hstep.
    rewrite Hpasses, Hempty in Hstep. destruct Hstep as [-> ->]. now split.
  - intros request net st server Hcached.
    pose proof (fetch_step request net st) as Hstep. rewrite Hcached in Hstep.
    pose proof (fun Hpasses => fetch_reuses request net st server Hpasses Hcached)
      as Hreuse.
    destruct (authenticated _ _); [destruct Hstep as [-> ->] | rewrite Hstep];
      repeat split; auto; discriminate.
  - intros requests net env Hempty.
    pose proof (serve_from requests net (fresh env)) as Hrun.
    cbn [fresh isolate_env constructions] in Hrun. rewrite Hempty in Hrun.
    destruct (existsb _ _); destruct Hrun as [-> ->]; now split.
  - intros env. reflexivity.
Qed.

End Lifecycle.
(** ** Further properties of the gate *)

Section GateAccepts.

Context {platform : Platform} {transport : Transport}.

(** X1. A request that is not a pre-flight and presents the hub secret, a
    non-empty one, in the [token] query parameter or, having no such
    parameter, in the [X-Api-Token] header, passes the gate: it is handed to
    the cached server when the handle is set, and otherwise to the server
    built from the environment, which the handle then holds. *)
Theorem valid_token_is_delegated
    (request : Request.t) (net : Network) (st : Isolate) :
  Request.method request <> "OPTIONS" ->
  HUB_TOKEN (isolate_env st) <> "" ->
  query_token request = Some (HUB_TOKEN (isolate_env st))
  \/ (query_token request = None
      /\ header_token request = Some (HUB_TOKEN (isolate_env st))) ->
  fetch request net st
  = match __SERVER (isolate_env st) with
    | Some server => lift (handle server request (isolate_env st)) net st
    | None =>
        lift (handle (buildServer (isolate_env st)) request
                (set_SERVER (isolate_env st) (buildServer (isolate_env st))))
          net
          {| isolate_env := set_SERVER (isolate_env st) (buildServer (isolate_env st));
             constructions := S (constructions st);
             outbound := outbound st |}
    end.
Proof.
  intros Hmethod Hsecret Htoken.
  rewrite fetch_not_preflight by assumption.
  assert (Hx : extracted_token request = Some (HUB_TOKEN (isolate_env st))).
  { unfold extracted_token. destruct Htoken as [-> | [-> ->]]; reflexivity. }
  rewrite Hx. cbn [falsy strict_neq].
  rewrite String.eqb_refl, (proj2 (String.eqb_neq _ _) Hsecret). cbn [negb orb].
  unfold bind, SERVER_nullish_assign, read_env.
  now destruct (__SERVER (isolate_env st)).
Qed.

(** X2. When the hub secret is the empty string, every request that is not a
    pre-flight is rejected, also one that presents the empty token: the
    isolate answers 401 and is left as it was. *)
Theorem empty_hub_secret_rejects_everything
    (request : Request.t) (net : Network) (st : Isolate) :
  Request.method request <> "OPTIONS" ->
  HUB_TOKEN (isolate_env st) = "" ->
  fetch request net st = (inr unauthorized_response, st).
Proof.
  intros Hmethod Hsecret.
  rewrite fetch_not_preflight by assumption.
  rewrite Hsecret.
  destruct (extracted_token request) as [t |]; [| reflexivity].
  cbn [falsy strict_neq]. now destruct (t =? "").
Qed.

(** X3. The query parameter comes first: a request that is not a pre-flight
    and whose [token] parameter is present and differs from the hub secret is
    rejected whatever its [X-Api-Token] header holds. *)
Theorem wrong_query_token_overrides_header
    (request : Request.t) (net : Network) (st : Isolate) (t : string) :
  Request.method request <> "OPTIONS" ->
  query_token request = Some t ->
  t <> HUB_TOKEN (isolate_env st) ->
  fetch request net st = (inr unauthorized_response, st).
Proof.
  intros Hmethod Hquery Hwrong.
  rewrite fetch_not_preflight by assumption.
  unfold extracted_token. rewrite Hquery. cbn [falsy strict_neq].
  rewrite (proj2 (String.eqb_neq _ _) Hwrong). cbn [negb].
  now rewrite orb_true_r.
Qed.

End GateAccepts.

(** ** Further properties of the schemas *)

Section SchemasAccept.

Lemma parse_object {A : Type} (shape : ZodShape A) (args : value) (validated : A) :
  safeParse (z_object shape) args = Some validated
  <-> exists props, args = JObj props /\ parseShape shape props = Some validated.
Proof.
  cbn [safeParse]. split.
  - destruct args; try discriminate. intros Hshape. now exists props.
  - now intros (props & -> & Hshape).
Qed.

Lemma parse_field {A B : Type} (key : string) (type : ZodType A) (rest : ZodShape B)
    (props : object) (a : A) (b : B) :
  parseShape (field key type rest) props = Some (a, b)
  <-> safeParse type (get_prop props key) = Some a /\ parseShape rest props = Some b.
Proof.
  cbn [parseShape]. split.
  - destruct (safeParse type (get_prop props key)); [| discriminate].
    destruct (parseShape rest props); [| discriminate].
    now intros [= -> ->].
  - now intros [-> ->].
Qed.

Lemma parse_plain_string (v : value) (s : string) :
  safeParse (z_string []) v = Some s <-> v = JStr s.
Proof.
  cbn. split.
  - destruct v; try discriminate. now intros [= ->].
  - now intros ->.
Qed.

Lemma parse_bounded_string (lo hi : Z) (v : value) (s : string) :
  safeParse (z_string [str_min lo; str_max hi]) v = Some s
  <-> v = JStr s /\ (lo <= js_length s <= hi)%Z.
Proof.
  cbn. split.
  - destruct v as [| | | | s0 | |]; try discriminate.
    destruct (Z.leb_spec lo (js_length s0)); [| discriminate].
    destruct (Z.leb_spec (js_length s0) hi); [| discriminate].
    intros [= ->]. now repeat split.
  - intros [-> [Hlo Hhi]]. apply Z.leb_le in Hlo, Hhi. now rewrite Hlo, Hhi.
Qed.

Lemma parse_fixed_length_string (n : Z) (v : value) (s : string) :
  safeParse (z_string [str_length n]) v = Some s
  <-> v = JStr s /\ js_length s = n.
Proof.
  cbn. split.
  - destruct v as [| | | | s0 | |]; try discriminate.
    destruct (Z.eqb_spec (js_length s0) n); [| discriminate].
    intros [= ->]. now split.
  - intros [-> Hlen]. apply Z.eqb_eq in Hlen. now rewrite Hlen.
Qed.

Lemma parse_defaulted_string (d : string) (v : value) (s : string) :
  safeParse (z_default (z_string []) d) v = Some s
  <-> v = JStr s \/ (v = JUndefined /\ s = d).
Proof.
  cbn. split.
  - destruct v; try discriminate; intros [= <-]; auto.
  - now intros [-> | [-> ->]].
Qed.

Lemma integer_range_checks (lo hi : Z) (n : Q) :
  (exists k : Z, (lo <= k <= hi)%Z /\ (n == inject_Z k)%Q) ->
  forallb (check_number n) [num_int; num_min (inject_Z lo); num_max (inject_Z hi)] = true.
Proof.
  intros (k & [Hlo Hhi] & Hk). cbn.
  assert (Hint : isInteger n = true).
  { unfold isInteger. apply Z.eqb_eq.
    unfold Qeq in Hk. cbn [Qnum Qden inject_Z] in Hk.
    replace (Qnum n) with (k * Zpos (Qden n))%Z by lia.
    apply Z.mod_mul. discriminate. }
  assert (Hmin : Qle_bool (inject_Z lo) n = true)
    by (apply Qle_bool_iff; rewrite Hk, <- Zle_Qle; exact Hlo).
  assert (Hmax : Qle_bool n (inject_Z hi) = true)
    by (apply Qle_bool_iff; rewrite Hk, <- Zle_Qle; exact Hhi).
  now rewrite Hint, Hmin, Hmax.
Qed.

Lemma parse_steps (v : value) (steps : Q) :
  safeParse (z_default (z_number [num_int; num_min 1; num_max 100]) 30%Q) v = Some steps
  <-> (v = JUndefined /\ steps = 30%Q)
      \/ (v = JNum steps
          /\ exists k : Z, (1 <= k <= 100)%Z /\ (steps == inject_Z k)%Q).
Proof.
  cbn [safeParse]. split.
  - destruct v as [| | | n | | |]; try discriminate.
    + intros [= <-]. now left.
    + destruct (forallb (check_number n) [num_int; num_min 1; num_max 100]) eqn:Hchecks;
        [| discriminate].
      intros [= <-]. right. split; [reflexivity |].
      now apply (integer_range_accepted 1 100).
  - intros [[-> ->] | [-> Hrange]]; [reflexivity |].
    pose proof (integer_range_checks 1 100 steps Hrange) as Hchecks.
    change (inject_Z 1) with 1%Q in Hchecks.
    change (inject_Z 100) with 100%Q in Hchecks.
    cbn [safeParse]. now rewrite Hchecks.
Qed.

(** X11. [generate_audio] accepts exactly the objects whose [text] is a
    string of 1 to 5000 characters and whose [voiceId] is a string, of any
    length, and whose [modelId] is a string or is absent; what it yields are
    those strings, with eleven_turbo_v2 for an absent [modelId].  Anything
    else, also a value that is no object, is rejected. *)
Theorem generate_audio_schema_accepts (args : value) (text voiceId modelId : string) :
  safeParse generate_audio_schema args = Some (text, (voiceId, (modelId, tt)))
  <-> exists props,
        args = JObj props
        /\ get_prop props "text" = JStr text
        /\ (1 <= js_length text <= 5000)%Z
        /\ get_prop props "voiceId" = JStr voiceId
        /\ (get_prop props "modelId" = JStr modelId
            \/ (get_prop props "modelId" = JUndefined /\ modelId = "eleven_turbo_v2")).
Proof.
  unfold generate_audio_schema. rewrite parse_object. split.
  - intros (props & -> & Hshape). exists props.
    apply parse_field in Hshape as [Htext Hshape].
    apply parse_field in Hshape as [Hvoice Hshape].
    apply parse_field in Hshape as [Hmodel _].
    apply parse_bounded_string in Htext as [Htext Hlen].
    apply parse_plain_string in Hvoice.
    apply parse_defaulted_string in Hmodel.
    now repeat split.
  - intros (props & -> & Htext & Hlen & Hvoice & Hmodel). exists props.
    split; [reflexivity |].
    apply parse_field. split; [now apply parse_bounded_string |].
    apply parse_field. split; [now apply parse_plain_string |].
    apply parse_field. split; [now apply parse_defaulted_string | reflexivity].
Qed.

(** X12. [generate_image] accepts exactly the objects whose [prompt] is a
    string of 1 to 800 characters and whose [steps] is absent or is a number
    equal to an integer from 1 to 100; what it yields is the prompt and that
    number, 30 for absent [steps]. *)
Theorem generate_image_schema_accepts (args : value) (prompt : string) (steps : Q) :
  safeParse generate_image_schema args = Some (prompt, (steps, tt))
  <-> exists props,
        args = JObj props
        /\ get_prop props "prompt" = JStr prompt
        /\ (1 <= js_length prompt <= 800)%Z
        /\ ((get_prop props "steps" = JUndefined /\ steps = 30%Q)
            \/ (get_prop props "steps" = JNum steps
                /\ exists k : Z, (1 <= k <= 100)%Z /\ (steps == inject_Z k)%Q)).
Proof.
  unfold generate_image_schema. rewrite parse_object. split.
  - intros (props & -> & Hshape). exists props.
    apply parse_field in Hshape as [Hprompt Hshape].
    apply parse_field in Hshape as [Hsteps _].
    apply parse_bounded_string in Hprompt as [Hprompt Hlen].
    apply parse_steps in Hsteps.
    now repeat split.
  - intros (props & -> & Hprompt & Hlen & Hsteps). exists props.
    split; [reflexivity |].
    apply parse_field. split; [now apply parse_bounded_string |].
    apply parse_field. split; [now apply parse_steps | reflexivity].
Qed.

(** X13. [translate_text] accepts exactly the objects whose [text] is a
    string of 1 to 10000 characters and whose [targetLang] is a string of
    exactly two characters, and yields those two strings. *)
Theorem translate_text_schema_accepts (args : value) (text targetLang : string) :
  safeParse translate_text_schema args = Some (text, (targetLang, tt))
  <-> exists props,
        args = JObj props
        /\ get_prop props "text" = JStr text
        /\ (1 <= js_length text <= 10000)%Z
        /\ get_prop props "targetLang" = JStr targetLang
        /\ js_length targetLang = 2%Z.
Proof.
  unfold translate_text_schema. rewrite parse_object. split.
  - intros (props & -> & Hshape). exists props.
    apply parse_field in Hshape as [Htext Hshape].
    apply parse_field in Hshape as [Hlang _].
    apply parse_bounded_string in Htext as [Htext Hlen].
    apply parse_fixed_length_string in Hlang as [Hlang Htwo].
    now repeat split.
  - intros (props & -> & Htext & Hlen & Hlang & Htwo). exists props.
    split; [reflexivity |].
    apply parse_field. split; [now apply parse_bounded_string |].
    apply parse_field. split; [now apply parse_fixed_length_string | reflexivity].
Qed.

End SchemasAccept.

(** ** Further properties of the handlers *)

Section HandlersFurther.

Context {platform : Platform}.

Lemma is_ok (res : Response.t) :
  (200 <= Response.status res <= 299)%Z -> Response.ok res = true.
Proof.
  intros [Hlo Hhi]. unfold Response.ok.
  apply Z.leb_le in Hlo, Hhi. now rewrite Hlo, Hhi.
Qed.

Lemma translate_text_call (env : Env) (text targetLang : string)
    (net : Network) (log : OutboundLog) :
  snd (translate_text env (text, (targetLang, tt)) net log)
  = (log ++ [ ((TRANSLATE_ENDPOINT env ++ "?lang=" ++ targetLang)%string,
               {| RequestInit.method := "POST";
                  RequestInit.headers := [];
                  RequestInit.body := Some text |}) ])%list.
Proof.
  unfold translate_text, bind, global_fetch.
  destruct (net _ _) as [res |]; [| reflexivity].
  now destruct (Response.ok res).
Qed.

(** X4. Every invocation of a registered handler makes exactly one outbound
    call, fixed before any answer arrives: whether the downstream answers
    well, answers with an error or cannot be reached, nothing is retried and
    no second call follows. *)
Theorem handler_makes_exactly_one_call
    (env : Env) (name : string) (definition : ToolDefinition)
    (validated : Args definition) :
  In (name, definition) (tools (buildServer env)) ->
  exists input init, forall net log,
    snd (handler definition validated net log) = (log ++ [(input, init)])%list.
Proof.
  intros Hregistered.
  apply registered_handler_run in Hregistered as (mapping & _ & Hcall).
  destruct (Hcall validated) as (input & init & Hone).
  exists input, init. intros net log. now rewrite Hone.
Qed.

(** X5. Each credential goes to its own downstream only.  The call of
    [generate_audio] is the same whatever the hub secret and the image key
    are, the call of [generate_image] is the same whatever the hub secret and
    the TTS token are, and the call of [translate_text] is the same whatever
    the three credentials are; in particular the hub secret is never sent
    downstream. *)
Theorem credentials_go_only_to_their_downstream
    (env : Env) (hub tts key hub' tts' key' : string)
    (net net' : Network) (log : OutboundLog) :
  (forall validated,
      snd (generate_audio (with_credentials env hub tts key) validated net log)
      = snd (generate_audio (with_credentials env hub' tts key') validated net' log))
  /\ (forall validated,
         snd (generate_image (with_credentials env hub tts key) validated net log)
         = snd (generate_image (with_credentials env hub' tts' key) validated net' log))
  /\ (forall validated,
         snd (translate_text (with_credentials env hub tts key) validated net log)
         = snd (translate_text (with_credentials env hub' tts' key') validated net' log)).
Proof.
  repeat split.
  - intros [text [voiceId [modelId []]]]. now rewrite !generate_audio_call.
  - intros [prompt [steps []]]. now rewrite !generate_image_call.
  - intros [text [targetLang []]]. now rewrite !translate_text_call.
Qed.

Lemma mapping_of_transport_failure (name : string)
    (mapping : option Response.t -> exn + ToolResult) :
  In (name, mapping) mappings -> mapping None = inl NetworkFailure.
Proof.
  intros [E | [E | [E | []]]]; now injection E as _ <-.
Qed.

(** X6. Every registered handler makes its one outbound call, and when that
    call cannot be answered (the global [fetch] rejects), the handler fails
    and returns no content block. *)
Theorem transport_failure_fails_the_call
    (env : Env) (name : string) (definition : ToolDefinition)
    (validated : Args definition) :
  In (name, definition) (tools (buildServer env)) ->
  exists input init, forall net log,
    snd (handler definition validated net log) = (log ++ [(input, init)])%list
    /\ (net input init = None ->
        fst (handler definition validated net log) = inl NetworkFailure).
Proof.
  intros Hregistered.
  apply registered_handler_run in Hregistered as (mapping & Hmapping & Hcall).
  destruct (Hcall validated) as (input & init & Hone).
  exists input, init. intros net log. rewrite Hone.
  split; [reflexivity |].
  intros Hanswer. cbn [fst]. rewrite Hanswer.
  now apply (mapping_of_transport_failure name).
Qed.

(** X7. Whenever the call of [generate_image] is answered with any status
    from 200 to 299 and a JSON object, the handler returns exactly one
    content block, the image block whose URL is the [url] field of that
    object; the answer is not checked further, so an object without [url]
    gives a block whose URL is undefined. *)
Theorem generate_image_returns_the_url
    (env : Env) (validated : string * (Q * unit))
    (net : Network) (log : OutboundLog)
    (outcome : exn + ToolResult) (input : string) (init : RequestInit.t)
    (res : Response.t) (props : object) :
  generate_image env validated net log = (outcome, (log ++ [(input, init)])%list) ->
  net input init = Some res ->
  (200 <= Response.status res <= 299)%Z ->
  JSON_parse (Response.text res) = Some (JObj props) ->
  outcome
  = inr {| content := [ [("type", JStr "image"); ("url", get_prop props "url")] ] |}.
Proof.
  intros Hrun Hanswer Hstatus Hjson.
  rewrite (one_call_inversion _ _ _ _ _ _ _ (generate_image_run env validated) Hrun).
  rewrite Hanswer. unfold image_mapping.
  now rewrite (is_ok res Hstatus), Hjson.
Qed.

(** X8. Whenever the call of [translate_text] is answered with any status
    from 200 to 299, the handler returns exactly one content block, the text
    block whose text is the body of the answer as it came: the body is not
    read as JSON, and an answer without body gives the empty text. *)
Theorem translate_text_returns_the_body
    (env : Env) (validated : string * (string * unit))
    (net : Network) (log : OutboundLog)
    (outcome : exn + ToolResult) (input : string) (init : RequestInit.t)
    (res : Response.t) :
  translate_text env validated net log = (outcome, (log ++ [(input, init)])%list) ->
  net input init = Some res ->
  (200 <= Response.status res <= 299)%Z ->
  outcome
  = inr {| content :=
             [ [("type", JStr "text");
                ("text", JStr (match Response.body res with
                               | Some body => body
                               | None => ""
                               end))] ] |}.
Proof.
  intros Hrun Hanswer Hstatus.
  rewrite (one_call_inversion _ _ _ _ _ _ _ (translate_text_run env validated) Hrun).
  rewrite Hanswer. unfold text_mapping.
  now rewrite (is_ok res Hstatus).
Qed.

(** X9. Whenever the call of [generate_audio] is answered with any status
    from 200 to 299 and a JSON object, the handler returns the confirmation
    block and the audio block whose URL is the [audioUrl] field of that
    object, also when the object has no such field: the URL is then
    undefined and the call still succeeds. *)
Theorem generate_audio_accepts_any_object
    (env : Env) (validated : string * (string * (string * unit)))
    (net : Network) (log : OutboundLog)
    (outcome : exn + ToolResult) (input : string) (init : RequestInit.t)
    (res : Response.t) (props : object) :
  generate_audio env validated net log = (outcome, (log ++ [(input, init)])%list) ->
  net input init = Some res ->
  (200 <= Response.status res <= 299)%Z ->
  JSON_parse (Response.text res) = Some (JObj props) ->
  outcome
  = inr {| content :=
             [ [("type", JStr "text"); ("text", JStr "Audio created successfully.")];
               [("type", JStr "audio");
                ("url", match lookup "audioUrl" props with
                        | Some audioUrl => audioUrl
                        | None => JUndefined
                        end);
                ("mime_type", JStr "audio/mpeg")] ] |}.
Proof.
  intros Hrun Hanswer Hstatus Hjson.
  rewrite (one_call_inversion _ _ _ _ _ _ _ (generate_audio_run env validated) Hrun).
  rewrite Hanswer. unfold audio_mapping.
  now rewrite (is_ok res Hstatus), Hjson.
Qed.

(** X10. [generate_audio] and [generate_image] each make their one outbound
    call, and whenever that call is answered with a status from 200 to 299
    and a body that is not JSON, or that is the JSON [null], the handler
    fails and returns no content block, although the downstream reported
    success. *)
Theorem unreadable_answer_fails_the_call (env : Env) :
  (forall validated, exists input init, forall net log,
      snd (generate_audio env validated net log) = (log ++ [(input, init)])%list
      /\ forall res,
           net input init = Some res ->
           (200 <= Response.status res <= 299)%Z ->
           JSON_parse (Response.text res) = None
           \/ JSON_parse (Response.text res) = Some JNull ->
           exists failure, fst (generate_audio env validated net log) = inl failure)
  /\ (forall validated, exists input init, forall net log,
         snd (generate_image env validated net log) = (log ++ [(input, init)])%list
         /\ forall res,
              net input init = Some res ->
              (200 <= Response.status res <= 299)%Z ->
              JSON_parse (Response.text res) = None
              \/ JSON_parse (Response.text res) = Some JNull ->
              exists failure, fst (generate_image env validated net log) = inl failure).
Proof.
  split; intros validated.
  - destruct (generate_audio_run env validated) as (input & init & Hone).
    exists input, init. intros net log. rewrite Hone. split; [reflexivity |].
    intros res Hanswer Hstatus Hjson. cbn [fst]. rewrite Hanswer.
    unfold audio_mapping. rewrite (is_ok res Hstatus).
    destruct Hjson as [-> | ->]; eauto.
  - destruct (generate_image_run env validated) as (input & init & Hone).
    exists input, init. intros net log. rewrite Hone. split; [reflexivity |].
    intros res Hanswer Hstatus Hjson. cbn [fst]. rewrite Hanswer.
    unfold image_mapping. rewrite (is_ok res Hstatus).
    destruct Hjson as [-> | ->]; eauto.
Qed.

End HandlersFurther.

(** ** Further properties of a process *)

Section ProcessFurther.

Context {platform : Platform} {transport : Transport}.

Lemma fetch_not_authenticated (request : Request.t) (net : Network) (st : Isolate) :
  authenticated (isolate_env st) request = false ->
  fetch request net st = (inr preflight_response, st)
  \/ fetch request net st = (inr unauthorized_response, st).
Proof.
  intros Hfails.
  destruct (String.eqb_spec (Request.method request) "OPTIONS") as [Hmethod | Hmethod].
  - left. now rewrite fetch_preflight.
  - right. rewrite fetch_not_preflight by assumption.
    rewrite gate_authenticated by assumption. now rewrite Hfails.
Qed.

(** X14. Traffic that does not pass the gate changes nothing: when none of
    the requests an isolate serves is both other than a pre-flight and
    carrying the non-empty hub secret, every one of them is answered with
    the pre-flight response or with the 401 response, and after all of them
    the isolate is as it was, with no outbound call made, nothing built and
    the cache handle untouched. *)
Theorem traffic_outside_the_gate_changes_nothing
    (requests : list Request.t) (net : Network) (st : Isolate) :
  (forall request, In request requests ->
                   authenticated (isolate_env st) request = false) ->
  snd (serve requests net st) = st
  /\ Forall (fun r => r = inr preflight_response \/ r = inr unauthorized_response)
       (fst (serve requests net st)).
Proof.
  induction requests as [| request rest IH]; intros Hnone.
  - now split.
  - cbn [serve].
    assert (Hfirst : authenticated (isolate_env st) request = false)
      by (apply Hnone; now left).
    assert (Hrest : forall r, In r rest -> authenticated (isolate_env st) r = false)
      by (intros r Hin; apply Hnone; now right).
    destruct (IH Hrest) as [Hstate Hanswers].
    destruct (fetch_not_authenticated request net st Hfirst) as [-> | ->];
      destruct (serve rest net st) as [rs st']; cbn [fst snd] in *;
      (split; [assumption | constructor; auto]).
Qed.

End ProcessFurther.

(** ** Concrete runs of the sample deployment *)

#[local] Existing Instance Sample.platform.
#[local] Existing Instance Sample.transport.

(** A request with a wrong token is rejected and leaves a fresh isolate
    fresh. *)
Lemma wrong_token_is_rejected :
  fetch Sample.wrong_token_request Sample.unreachable (fresh Sample.env)
  = (inr unauthorized_response, fresh Sample.env).
Proof.
  apply unauthorized_request_is_rejected.
  - discriminate.
  - right. vm_compute. discriminate.
Defined.

(** The right header does not save a request whose [token] parameter is
    empty. *)
Lemma empty_query_token_beats_the_header :
  header_token Sample.empty_query_token_request = Some (HUB_TOKEN Sample.env)
  /\ extracted_token Sample.empty_query_token_request = Some ""
  /\ fetch Sample.empty_query_token_request Sample.unreachable (fresh Sample.env)
     = (inr unauthorized_response, fresh Sample.env).
Proof.
  split; [reflexivity |].
  apply empty_query_token_is_rejected.
  - discriminate.
  - reflexivity.
Defined.

(** A pre-flight request with no token at all is answered with 204. *)
Lemma preflight_without_token_is_answered :
  fetch Sample.preflight_request Sample.unreachable (fresh Sample.env)
  = (inr preflight_response, fresh Sample.env).
Proof.
  apply preflight_is_answered_without_the_gate. reflexivity.
Defined.

(** C6, the claim as stated fails: the answer to a pre-flight request carries
    four headers, not five. *)
Lemma preflight_carries_four_headers :
  Request.method Sample.preflight_request = "OPTIONS"
  /\ fst (fetch Sample.preflight_request Sample.unreachable (fresh Sample.env))
     = inr preflight_response
  /\ List.length (Response.headers preflight_response) = 4%nat
  /\ List.length (Response.headers preflight_response) <> 5%nat.
Proof.
  repeat split. discriminate.
Qed.

(** [steps = 150] is rejected before any call is made. *)
Lemma steps_150_is_rejected :
  callTool (buildServer Sample.env) "generate_image"
    (JObj [("prompt", JStr "a cat"); ("steps", JNum 150)])
    (Sample.answers 200 Sample.image_document) []
  = (inr ValidationFailed, []).
Proof.
  apply invalid_arguments_never_reach_the_handler.
  apply (steps_out_of_range _ 150); [reflexivity |].
  intros (k & Hrange & Hk).
  unfold Qeq in Hk. cbn in Hk. lia.
Defined.

(** A downstream 500 with body boom makes each of the three tools fail with
    the message boom. *)
Lemma boom_is_surfaced :
  fst (generate_audio Sample.env Sample.audio_args (Sample.answers 500 "boom") [])
  = inl (Error "boom")
  /\ fst (generate_image Sample.env Sample.image_args (Sample.answers 500 "boom") [])
     = inl (Error "boom")
  /\ fst (translate_text Sample.env Sample.translate_args (Sample.answers 500 "boom") [])
     = inl (Error "boom").
Proof.
  split; [| split].
  - destruct (downstream_failure_is_surfaced Sample.env "generate_audio"
                Sample.audio_definition Sample.audio_args)
      as (input & init & Hcall); [left; reflexivity |].
    apply (proj2 (Hcall (Sample.answers 500 "boom") [])
             (new_Response (Some "boom") 500 []));
      [reflexivity | right; reflexivity].
  - destruct (downstream_failure_is_surfaced Sample.env "generate_image"
                Sample.image_definition Sample.image_args)
      as (input & init & Hcall); [right; left; reflexivity |].
    apply (proj2 (Hcall (Sample.answers 500 "boom") [])
             (new_Response (Some "boom") 500 []));
      [reflexivity | right; reflexivity].
  - destruct (downstream_failure_is_surfaced Sample.env "translate_text"
                Sample.translate_definition Sample.translate_args)
      as (input & init & Hcall); [right; right; left; reflexivity |].
    apply (proj2 (Hcall (Sample.answers 500 "boom") [])
             (new_Response (Some "boom") 500 []));
      [reflexivity | right; reflexivity].
Defined.

(** A downstream 200 with an [audioUrl] yields the confirmation and the audio
    block. *)
Lemma audio_url_is_returned :
  fst (generate_audio Sample.env Sample.audio_args
         (Sample.answers 200 Sample.audio_document) [])
  = inr {| content :=
             [ [("type", JStr "text"); ("text", JStr "Audio created successfully.")];
               [("type", JStr "audio"); ("url", JStr "https://x/a.mp3");
                ("mime_type", JStr "audio/mpeg")] ] |}.
Proof.
  apply (generate_audio_returns_the_audio_url Sample.env Sample.audio_args
           (Sample.answers 200 Sample.audio_document) []
           _ "https://tts.example/?token=tts-secret"
           {| RequestInit.method := "POST";
              RequestInit.headers := [("Content-Type", "application/json")];
              RequestInit.body :=
                JSON_stringify (JObj [("text", JStr "Hello");
                                      ("voiceId", JStr "voice-1");
                                      ("modelId", JStr "eleven_turbo_v2")]) |}
           (new_Response (Some Sample.audio_document) 200 [])
           [("audioUrl", JStr "https://x/a.mp3")]).
  - reflexivity.
  - reflexivity.
  - reflexivity.
  - reflexivity.
  - reflexivity.
Defined.

(** C7, the claim as stated fails, twice.  The image block that
    [generate_image] returns has the fields [type] and [url] and no MIME or
    media type; and the audio block that [generate_audio] returns for an
    answer without [audioUrl] has no resolved URL: its [url] is undefined. *)
Lemma blocks_without_media_type_or_url :
  (fst (generate_image Sample.env Sample.image_args
          (Sample.answers 200 Sample.image_document) [])
   = inr {| content := [ [("type", JStr "image"); ("url", JStr "https://x/i.png")] ] |}
   /\ map fst [("type", JStr "image"); ("url", JStr "https://x/i.png")] = ["type"; "url"]
   /\ lookup "mime_type" [("type", JStr "image"); ("url", JStr "https://x/i.png")] = None)
  /\ (JSON_parse (Sample.image_document) = Some (JObj [("url", JStr "https://x/i.png")])
      /\ fst (generate_audio Sample.env Sample.audio_args
                (Sample.answers 200 Sample.image_document) [])
         = inr {| content :=
                    [ [("type", JStr "text"); ("text", JStr "Audio created successfully.")];
                      [("type", JStr "audio"); ("url", JUndefined);
                       ("mime_type", JStr "audio/mpeg")] ] |}).
Proof.
  repeat split.
Qed.

(** The result of the sample image call was made from the answer to its one
    call, and its block is the image block with the [url] of that answer. *)
Lemma image_result_blocks :
  exists input init res,
    snd (generate_image Sample.env Sample.image_args
           (Sample.answers 200 Sample.image_document) [])
    = ([] ++ [(input, init)])%list
    /\ Sample.answers 200 Sample.image_document input init = Some res
    /\ Forall (ContentBlock res)
         [ [("type", JStr "image"); ("url", JStr "https://x/i.png")] ].
Proof.
  apply (content_blocks_are_of_three_variants Sample.env "generate_image"
           Sample.image_definition Sample.image_args
           (Sample.answers 200 Sample.image_document) []
           (snd (generate_image Sample.env Sample.image_args
                   (Sample.answers 200 Sample.image_document) []))
           {| content := [ [("type", JStr "image"); ("url", JStr "https://x/i.png")] ] |}).
  - right. left. reflexivity.
  - reflexivity.
Defined.

(** With [modelId] left out, the body sent to the TTS service names the
    default model. *)
Lemma default_model_is_sent :
  exists validated,
    safeParse generate_audio_schema
      (JObj [("text", JStr "Hello"); ("voiceId", JStr "voice-1")]) = Some validated
    /\ snd (generate_audio Sample.env validated Sample.unreachable [])
       = [ ("https://tts.example/?token=tts-secret",
            {| RequestInit.method := "POST";
               RequestInit.headers := [("Content-Type", "application/json")];
               RequestInit.body :=
                 Some ("{" ++ quoted "text" ++ ":" ++ quoted "Hello" ++ ","
                           ++ quoted "voiceId" ++ ":" ++ quoted "voice-1" ++ ","
                           ++ quoted "modelId" ++ ":" ++ quoted "eleven_turbo_v2"
                           ++ "}") |}) ].
Proof.
  apply (proj1 (omitted_fields_take_their_defaults Sample.env Sample.unreachable [])
           [("text", JStr "Hello"); ("voiceId", JStr "voice-1")] "Hello" "voice-1").
  - reflexivity.
  - cbn. lia.
  - reflexivity.
  - reflexivity.
Defined.

(** Three requests to a fresh isolate, two of them passing the gate: the
    server is built once. *)
Lemma one_construction_for_three_requests :
  constructions
    (snd (serve [Sample.no_token_request; Sample.authorized_request;
                 Sample.authorized_request]
            Sample.unreachable (fresh Sample.env)))
  = 1%nat.
Proof.
  exact (proj1 (proj1 (proj2 (proj2 server_is_built_at_most_once))
                  [Sample.no_token_request; Sample.authorized_request;
                   Sample.authorized_request]
                  Sample.unreachable Sample.env eq_refl)).
Defined.

(** The same [generate_audio] call under two sets of credentials, answered
    alike, ends alike. *)
Lemma audio_outcome_under_other_credentials :
  fst (generate_audio (with_credentials Sample.env "hub-secret" "tts-secret" "image-key")
         Sample.audio_args (Sample.answers 200 Sample.audio_document) [])
  = fst (generate_audio (with_credentials Sample.env "hub-2" "tts-2" "image-2")
           Sample.audio_args (Sample.answers 200 Sample.audio_document) []).
Proof.
  apply (proj1 (outcome_is_independent_of_credentials Sample.env
                  "hub-secret" "tts-secret" "image-key" "hub-2" "tts-2" "image-2"
                  (Sample.answers 200 Sample.audio_document)
                  (Sample.answers 200 Sample.audio_document))).
  intros call call' _ _. reflexivity.
Defined.

(** The secret in the header alone opens the gate: the server is built and
    the request handed to it. *)
Lemma header_token_is_delegated :
  fetch Sample.header_token_request Sample.unreachable (fresh Sample.env)
  = lift (handle (buildServer Sample.env) Sample.header_token_request
            (set_SERVER Sample.env (buildServer Sample.env)))
      Sample.unreachable
      {| isolate_env := set_SERVER Sample.env (buildServer Sample.env);
         constructions := 1;
         outbound := [] |}.
Proof.
  apply (valid_token_is_delegated Sample.header_token_request Sample.unreachable
           (fresh Sample.env)).
  - discriminate.
  - discriminate.
  - right. split; reflexivity.
Defined.

(** With an empty hub secret, the empty token does not open the gate. *)
Lemma empty_token_against_empty_secret :
  fetch Sample.empty_tokens_request Sample.unreachable (fresh Sample.env_without_secret)
  = (inr unauthorized_response, fresh Sample.env_without_secret).
Proof.
  apply empty_hub_secret_rejects_everything.
  - discriminate.
  - reflexivity.
Defined.

(** A wrong [token] parameter is rejected although the header is right. *)
Lemma wrong_query_beats_right_header :
  header_token Sample.wrong_query_right_header_request = Some (HUB_TOKEN Sample.env)
  /\ fetch Sample.wrong_query_right_header_request Sample.unreachable (fresh Sample.env)
     = (inr unauthorized_response, fresh Sample.env).
Proof.
  split; [reflexivity |].
  apply (wrong_query_token_overrides_header _ _ _ "guess").
  - discriminate.
  - reflexivity.
  - discriminate.
Defined.

(** [translate_text] makes one call, reached or not. *)
Lemma translate_text_makes_one_call :
  exists input init, forall net log,
    snd (translate_text Sample.env Sample.translate_args net log)
    = (log ++ [(input, init)])%list.
Proof.
  apply (handler_makes_exactly_one_call Sample.env "translate_text"
           Sample.translate_definition Sample.translate_args).
  right. right. left. reflexivity.
Defined.

(** Unreachable downstreams make each of the three tools fail. *)
Lemma unreachable_services_fail :
  fst (generate_audio Sample.env Sample.audio_args Sample.unreachable [])
  = inl NetworkFailure
  /\ fst (generate_image Sample.env Sample.image_args Sample.unreachable [])
     = inl NetworkFailure
  /\ fst (translate_text Sample.env Sample.translate_args Sample.unreachable [])
     = inl NetworkFailure.
Proof.
  split; [| split].
  - destruct (transport_failure_fails_the_call Sample.env "generate_audio"
                Sample.audio_definition Sample.audio_args)
      as (input & init & Hcall); [left; reflexivity |].
    apply (proj2 (Hcall Sample.unreachable [])). reflexivity.
  - destruct (transport_failure_fails_the_call Sample.env "generate_image"
                Sample.image_definition Sample.image_args)
      as (input & init & Hcall); [right; left; reflexivity |].
    apply (proj2 (Hcall Sample.unreachable [])). reflexivity.
  - destruct (transport_failure_fails_the_call Sample.env "translate_text"
                Sample.translate_definition Sample.translate_args)
      as (input & init & Hcall); [right; right; left; reflexivity |].
    apply (proj2 (Hcall Sample.unreachable [])). reflexivity.
Defined.

(** A 201 answer with a [url] yields the image block. *)
Lemma image_url_is_returned :
  fst (generate_image Sample.env Sample.image_args
         (Sample.answers 201 Sample.image_document) [])
  = inr {| content := [ [("type", JStr "image"); ("url", JStr "https://x/i.png")] ] |}.
Proof.
  apply (generate_image_returns_the_url Sample.env Sample.image_args
           (Sample.answers 201 Sample.image_document) []
           _ "https://image.example/"
           {| RequestInit.method := "POST";
              RequestInit.headers :=
                [("Authorization", "Bearer image-key");
                 ("Content-Type", "application/json")];
              RequestInit.body :=
                JSON_stringify (JObj [("prompt", JStr "a cat"); ("steps", JNum 30)]) |}
           (new_Response (Some Sample.image_document) 201 [])
           [("url", JStr "https://x/i.png")]).
  - reflexivity.
  - reflexivity.
  - cbn. lia.
  - reflexivity.
Defined.

(** The translation comes back as it was sent by the downstream. *)
Lemma translation_is_returned :
  fst (translate_text Sample.env Sample.translate_args (Sample.answers 200 "Bonjour") [])
  = inr {| content := [ [("type", JStr "text"); ("text", JStr "Bonjour")] ] |}.
Proof.
  apply (translate_text_returns_the_body Sample.env Sample.translate_args
           (Sample.answers 200 "Bonjour") []
           _ "https://translate.example/?lang=fr"
           {| RequestInit.method := "POST";
              RequestInit.headers := [];
              RequestInit.body := Some "Hello" |}
           (new_Response (Some "Bonjour") 200 [])).
  - reflexivity.
  - reflexivity.
  - cbn. lia.
Defined.

(** An answer without [audioUrl] still yields the audio block, its URL
    undefined. *)
Lemma audio_without_url_is_returned :
  fst (generate_audio Sample.env Sample.audio_args
         (Sample.answers 200 Sample.image_document) [])
  = inr {| content :=
             [ [("type", JStr "text"); ("text", JStr "Audio created successfully.")];
               [("type", JStr "audio"); ("url", JUndefined);
                ("mime_type", JStr "audio/mpeg")] ] |}.
Proof.
  apply (generate_audio_accepts_any_object Sample.env Sample.audio_args
           (Sample.answers 200 Sample.image_document) []
           _ "https://tts.example/?token=tts-secret"
           {| RequestInit.method := "POST";
              RequestInit.headers := [("Content-Type", "application/json")];
              RequestInit.body :=
                JSON_stringify (JObj [("text", JStr "Hello");
                                      ("voiceId", JStr "voice-1");
                                      ("modelId", JStr "eleven_turbo_v2")]) |}
           (new_Response (Some Sample.image_document) 200 [])
           [("url", JStr "https://x/i.png")]).
  - reflexivity.
  - reflexivity.
  - cbn. lia.
  - reflexivity.
Defined.

(** A 200 answer that is not JSON makes [generate_audio] and
    [generate_image] fail. *)
Lemma text_answer_fails_audio_and_image :
  (exists failure,
      fst (generate_audio Sample.env Sample.audio_args (Sample.answers 200 "OK") [])
      = inl failure)
  /\ (exists failure,
         fst (generate_image Sample.env Sample.image_args (Sample.answers 200 "OK") [])
         = inl failure).
Proof.
  split.
  - destruct (proj1 (unreadable_answer_fails_the_call Sample.env) Sample.audio_args)
      as (input & init & Hcall).
    apply (proj2 (Hcall (Sample.answers 200 "OK") [])
             (new_Response (Some "OK") 200 []));
      [reflexivity | cbn; lia | left; reflexivity].
  - destruct (proj2 (unreadable_answer_fails_the_call Sample.env) Sample.image_args)
      as (input & init & Hcall).
    apply (proj2 (Hcall (Sample.answers 200 "OK") [])
             (new_Response (Some "OK") 200 []));
      [reflexivity | cbn; lia | left; reflexivity].
Defined.

(** A pre-flight, a request without token and one with a wrong token leave a
    fresh isolate fresh. *)
Lemma three_requests_outside_the_gate :
  snd (serve [Sample.preflight_request; Sample.no_token_request;
              Sample.wrong_token_request]
         Sample.unreachable (fresh Sample.env))
  = fresh Sample.env.
Proof.
  apply (traffic_outside_the_gate_changes_nothing
           [Sample.preflight_request; Sample.no_token_request;
            Sample.wrong_token_request]
           Sample.unreachable (fresh Sample.env)).
  intros request [<- | [<- | [<- | []]]]; reflexivity.
Defined.
